(** * Hybrid movie search: a shallow embedding of [agent/agent.py]

    The development follows the Python module top to bottom: the text
    primitives the code calls ([str.strip], [str.lower], [str.split], [in],
    [int]), the fragment of [re] its patterns use, JSON values with
    [json.dumps], the search agent, the orchestrator, the recommendation
    reconciler and the offer annotator.

    Text is modelled as [string], one [ascii] per character: the model
    covers ASCII text.  Characters above 127 are carried through unchanged
    and belong to no character class. *)

From Stdlib Require Import ZArith Ascii.
From stdpp Require Import base decidable option list strings gmap pretty.

Local Open Scope Z_scope.

(** ** Python text primitives *)

Module Py.

(** [str.isspace] on one ASCII character; [re]'s [\s] on [str] patterns
    uses the same table. *)
Definition is_space (c : ascii) : bool :=
  let n := N_of_ascii c in
  ((9 <=? n) && (n <=? 13) || (28 <=? n) && (n <=? 32))%N.

Definition is_digit (c : ascii) : bool :=
  let n := N_of_ascii c in ((48 <=? n) && (n <=? 57))%N.

Definition is_upper (c : ascii) : bool :=
  let n := N_of_ascii c in ((65 <=? n) && (n <=? 90))%N.

Definition is_lower (c : ascii) : bool :=
  let n := N_of_ascii c in ((97 <=? n) && (n <=? 122))%N.

(** A word character for [\b]: letter, digit or underscore. *)
Definition is_word (c : ascii) : bool :=
  is_upper c || is_lower c || is_digit c || (N_of_ascii c =? 95)%N.

Definition lower_char (c : ascii) : ascii :=
  if is_upper c then ascii_of_N (N_of_ascii c + 32) else c.

(** [s.lower()] *)
Fixpoint lower (s : string) : string :=
  match s with
  | "" => ""
  | String c s' => String (lower_char c) (lower s')
  end.

(** [s.lstrip()] *)
Fixpoint lstrip (s : string) : string :=
  match s with
  | "" => ""
  | String c s' => if is_space c then lstrip s' else s
  end.

(** [s.rstrip()] *)
Fixpoint rstrip (s : string) : string :=
  match s with
  | "" => ""
  | String c s' =>
      match rstrip s' with
      | "" => if is_space c then "" else String c ""
      | r => String c r
      end
  end.

(** [s.strip()] *)
Definition strip (s : string) : string := lstrip (rstrip s).

(** [s.startswith(p)] *)
Fixpoint startswith (p s : string) : bool :=
  match p, s with
  | "", _ => true
  | String a p', String b s' => if decide (a = b) then startswith p' s' else false
  | String _ _, "" => false
  end.

(** [s[n:]] for [0 <= n] *)
Fixpoint drop (n : nat) (s : string) : string :=
  match n, s with
  | O, _ => s
  | S n', String _ s' => drop n' s'
  | S _, "" => ""
  end.

(** [s.endswith(p)]: [p] is no longer than [s] and equals its tail. *)
Definition endswith (p s : string) : bool :=
  bool_decide (String.length p ≤ String.length s)%nat
  && bool_decide (drop (String.length s - String.length p) s = p).

(** [s[:n]] for [0 <= n] *)
Fixpoint take (n : nat) (s : string) : string :=
  match n, s with
  | S n', String c s' => String c (take n' s')
  | _, _ => ""
  end.

(** [s[:-n]] for [0 < n]: everything but the last [n] characters. *)
Definition drop_end (n : nat) (s : string) : string :=
  take (String.length s - n) s.

(** [p in s] for strings. *)
Fixpoint contains (p s : string) : bool :=
  startswith p s ||
  match s with
  | "" => false
  | String _ s' => contains p s'
  end.

(** [s.split(sep)] for a non-empty separator: left to right, occurrences
    do not overlap.  [skip] counts the separator characters still to be
    passed over, [cur] is the current piece in reverse. *)
Fixpoint split_go (sep s : string) (skip : nat) (cur : string) : list string :=
  match s with
  | "" => [String.rev cur]
  | String c s' =>
      match skip with
      | S k => split_go sep s' k cur
      | O =>
          if startswith sep s
          then String.rev cur :: split_go sep s' (String.length sep - 1) ""
          else split_go sep s' 0 (String c cur)
      end
  end.

Definition split (sep s : string) : list string := split_go sep s 0 "".

(** [list(s)]: the one-character strings of [s]. *)
Fixpoint chars (s : string) : list string :=
  match s with
  | "" => []
  | String c s' => String c "" :: chars s'
  end.

(** Value of a decimal digit string, most significant digit first. *)
Fixpoint digits_value (acc : Z) (s : string) : Z :=
  match s with
  | "" => acc
  | String c s' => digits_value (10 * acc + Z.of_N (N_of_ascii c - 48)) s'
  end.

(** The body of an integer literal accepted by [int(str)]: digits, with
    single underscores allowed between two digits.  Returns the digits
    with the underscores removed. *)
Fixpoint int_body (after_digit : bool) (s : string) : option string :=
  match s with
  | "" => if after_digit then Some "" else None
  | String c s' =>
      if is_digit c then String c <$> int_body true s'
      else if decide (c = "_"%char) then
        if after_digit then
          match s' with
          | String d _ => if is_digit d then int_body false s' else None
          | "" => None
          end
        else None
      else None
  end.

(** [int(s)] for a string argument: [None] stands for [ValueError]. *)
Definition int (s : string) : option Z :=
  match strip s with
  | String "-" t => Z.opp <$> (digits_value 0 <$> int_body false t)
  | String "+" t => digits_value 0 <$> int_body false t
  | t => digits_value 0 <$> int_body false t
  end.

End Py.

(** ** The fragment of Python's [re] used by the agent

    A backtracking matcher in continuation-passing style: alternatives are
    tried left to right, repetitions are greedy, and the first success
    wins, which is the order in which [re] explores a pattern.  Repetition
    is only ever applied to single-character classes in the agent's
    patterns, so [Rep] takes a class. *)

Module Re.

Inductive cclass :=
| CChar (c : ascii)        (* a literal character, [\$] or [\.] *)
| CDot                     (* [.]  : anything but a newline *)
| CSpace                   (* [\s] *)
| CDigit                   (* [\d] *)
| CSet (l : list ascii).   (* [[...]] *)

Inductive regex :=
| Eps
| Lit (s : string)                           (* literal text *)
| Rep (c : cclass) (lo : nat) (hi : option nat)  (* c{lo,hi}, greedy *)
| Seq (r1 r2 : regex)
| Alt (r1 r2 : regex)                        (* r1|r2 *)
| Grp (n : nat) (r : regex)                  (* capturing group n *)
| Bnd.                                       (* [\b] *)

Declare Scope regex_scope.
Delimit Scope regex_scope with re.
Bind Scope regex_scope with regex.
Infix "⋅" := Seq (at level 40, left associativity) : regex_scope.
Infix "∣" := Alt (at level 50, left associativity) : regex_scope.

Definition plus (c : cclass) : regex := Rep c 1 None.       (* c+ *)
Definition star (c : cclass) : regex := Rep c 0 None.       (* c* *)
Definition opt (r : regex) : regex := Alt r Eps.            (* r? *)

(** Matcher state: the character before the cursor (for [\b]), the text
    still to be read, and the groups captured so far (latest first). *)
Record state := State {
  prev : option ascii;
  rest : string;
  caps : list (nat * string)
}.

(** Flag [re.IGNORECASE]. *)
Definition fold_case (ic : bool) (c : ascii) : ascii :=
  if ic then Py.lower_char c else c.

Definition in_class (ic : bool) (cl : cclass) (c : ascii) : bool :=
  match cl with
  | CChar a => bool_decide (fold_case ic a = fold_case ic c)
  | CDot => negb (bool_decide (c = "010"%char))
  | CSpace => Py.is_space c
  | CDigit => Py.is_digit c
  | CSet l => bool_decide (fold_case ic c ∈ fold_case ic <$> l)
  end.

Section Matcher.
Context {R : Type} (ic : bool).

Fixpoint match_lit (l : string) (st : state) (k : state → option R) : option R :=
  match l with
  | "" => k st
  | String a l' =>
      match rest st with
      | String c s' =>
          if bool_decide (fold_case ic a = fold_case ic c)
          then match_lit l' (State (Some c) s' (caps st)) k
          else None
      | "" => None
      end
  end.

(** Greedy bounded repetition of a class: take one more character when
    allowed, and fall back to stopping here when the rest fails. *)
Fixpoint match_rep (cl : cclass) (lo : nat) (hi : option nat)
    (p : option ascii) (s : string) (cs : list (nat * string))
    (k : state → option R) : option R :=
  let stop := if decide (lo = 0%nat) then k (State p s cs) else None in
  match s with
  | String c s' =>
      if in_class ic cl c && negb (bool_decide (hi = Some 0%nat))
      then match match_rep cl (Nat.pred lo) (Nat.pred <$> hi) (Some c) s' cs k with
           | Some r => Some r
           | None => stop
           end
      else stop
  | "" => stop
  end.

Definition at_boundary (st : state) : bool :=
  let before := from_option Py.is_word false (prev st) in
  let after := match rest st with String c _ => Py.is_word c | "" => false end in
  xorb before after.

Fixpoint run (r : regex) (st : state) (k : state → option R) : option R :=
  match r with
  | Eps => k st
  | Lit l => match_lit l st k
  | Rep cl lo hi => match_rep cl lo hi (prev st) (rest st) (caps st) k
  | Seq r1 r2 => run r1 st (λ st1, run r2 st1 k)
  | Alt r1 r2 =>
      match run r1 st k with
      | Some x => Some x
      | None => run r2 st k
      end
  | Grp n r1 =>
      run r1 st (λ st1,
        let text := Py.take (String.length (rest st) - String.length (rest st1)) (rest st) in
        k (State (prev st1) (rest st1) ((n, text) :: caps st1)))
  | Bnd => if at_boundary st then k st else None
  end.
End Matcher.

(** A match object: what was captured and where the match ended. *)
Definition match_at (ic : bool) (r : regex) (p : option ascii) (s : string) : option state :=
  run ic r (State p s []) Some.

(** [re.search]: the leftmost position at which the pattern matches. *)
Fixpoint search_from (ic : bool) (r : regex) (p : option ascii) (s : string) : option state :=
  match match_at ic r p s with
  | Some m => Some m
  | None =>
      match s with
      | "" => None
      | String c s' => search_from ic r (Some c) s'
      end
  end.

Definition search (ic : bool) (r : regex) (s : string) : option state :=
  search_from ic r None s.

(** [m.group(n)]: [None] when the group took no part in the match. *)
Definition group (n : nat) (m : state) : option string :=
  snd <$> List.find (λ e, bool_decide (fst e = n)) (caps m).

(** [re.findall] for a pattern with exactly one group: the text of group
    1 for every non-overlapping match, left to right, and the empty
    string where the group took no part.  After an empty match the scan
    moves on by one character. *)
Fixpoint findall_go (fuel : nat) (ic : bool) (r : regex) (p : option ascii) (s : string)
    : list string :=
  match fuel with
  | O => []
  | S fuel' =>
      match match_at ic r p s with
      | Some m =>
          default "" (group 1 m) ::
          (if decide (rest m = s)
           then match s with
                | String c s' => findall_go fuel' ic r (Some c) s'
                | "" => []
                end
           else findall_go fuel' ic r (prev m) (rest m))
      | None =>
          match s with
          | String c s' => findall_go fuel' ic r (Some c) s'
          | "" => []
          end
      end
  end.

Definition findall (ic : bool) (r : regex) (s : string) : list string :=
  findall_go (S (String.length s)) ic r None s.

End Re.

(** ** JSON values and [json.dumps] *)

(** What [json.load] produces and [json.dumps] accepts.  A [dict] keeps its
    items in insertion order, as Python's does; a float is carried as its
    [repr] text. *)
#[local] Set Warnings "-register-all".
Inductive value :=
| VNone
| VBool (b : bool)
| VInt (z : Z)
| VFloat (repr : string)
| VStr (s : string)
| VList (l : list value)
| VDict (d : list (string * value)).
#[local] Set Warnings "register-all".

(** [d.get(k)] on an insertion-ordered dictionary. *)
Definition dict_get {V} (k : string) (d : list (string * V)) : option V :=
  snd <$> List.find (λ e, bool_decide (fst e = k)) d.

Module Json.

Definition quote : ascii := "034"%char.
Definition backslash : ascii := "\"%char.

Definition hex_digit (n : N) : ascii :=
  if (n <? 10)%N then ascii_of_N (48 + n) else ascii_of_N (87 + n).

Definition hex2 (c : ascii) : string :=
  let n := N_of_ascii c in
  String (hex_digit (n / 16)) (String (hex_digit (n mod 16)) "").

(** One character of a string literal under [ensure_ascii=True]. *)
Definition escape_char (c : ascii) : string :=
  let n := N_of_ascii c in
  if decide (c = quote) then String backslash (String quote "")
  else if decide (c = backslash) then String backslash (String backslash "")
  else if (n =? 10)%N then "\n"
  else if (n =? 13)%N then "\r"
  else if (n =? 9)%N then "\t"
  else if (n =? 8)%N then "\b"
  else if (n =? 12)%N then "\f"
  else if ((32 <=? n) && (n <=? 126))%N then String c ""
  else "\u00" +:+ hex2 c.

Fixpoint escape (s : string) : string :=
  match s with
  | "" => ""
  | String c s' => escape_char c +:+ escape s'
  end.

Definition dumps_str (s : string) : string :=
  String quote (escape s +:+ String quote "").

(** [json.dumps(v)] with the default separators [", "] and [": "] and
    without [sort_keys]: the items of an object are written in the
    dictionary's own order. *)
Fixpoint dumps (v : value) : string :=
  match v with
  | VNone => "null"
  | VBool true => "true"
  | VBool false => "false"
  | VInt z => pretty z
  | VFloat r => r
  | VStr s => dumps_str s
  | VList l =>
      "[" +:+
      (fix elems (l : list value) : string :=
         match l with
         | [] => ""
         | [x] => dumps x
         | x :: l' => dumps x +:+ ", " +:+ elems l'
         end) l +:+ "]"
  | VDict d =>
      "{" +:+
      (fix items (d : list (string * value)) : string :=
         match d with
         | [] => ""
         | [(k, x)] => dumps_str k +:+ ": " +:+ dumps x
         | (k, x) :: d' => dumps_str k +:+ ": " +:+ dumps x +:+ ", " +:+ items d'
         end) d +:+ "}"
  end.

End Json.

(** ** [str()] and [repr()] of a value *)

Module Repr.

Definition apostrophe : ascii := "'"%char.

Definition repr_char (q c : ascii) : string :=
  let n := N_of_ascii c in
  if decide (c = Json.backslash) then String c (String c "")
  else if decide (c = q) then String Json.backslash (String c "")
  else if (n =? 10)%N then "\n"
  else if (n =? 13)%N then "\r"
  else if (n =? 9)%N then "\t"
  else if ((n <? 32) || (n =? 127) || (128 <=? n) && (n <=? 160) || (n =? 173))%N
    then "\x" +:+ Json.hex2 c
  else String c "".

Fixpoint repr_body (q : ascii) (s : string) : string :=
  match s with
  | "" => ""
  | String c s' => repr_char q c +:+ repr_body q s'
  end.

(** [repr(s)]: single quotes, unless the text has a single quote and no
    double quote. *)
Definition repr_str (s : string) : string :=
  let q := if Py.contains (String apostrophe "") s
              && negb (Py.contains (String Json.quote "") s)
           then Json.quote else apostrophe in
  String q (repr_body q s +:+ String q "").

Fixpoint repr (v : value) : string :=
  match v with
  | VNone => "None"
  | VBool true => "True"
  | VBool false => "False"
  | VInt z => pretty z
  | VFloat r => r
  | VStr s => repr_str s
  | VList l =>
      "[" +:+
      (fix elems (l : list value) : string :=
         match l with
         | [] => ""
         | [x] => repr x
         | x :: l' => repr x +:+ ", " +:+ elems l'
         end) l +:+ "]"
  | VDict d =>
      "{" +:+
      (fix items (d : list (string * value)) : string :=
         match d with
         | [] => ""
         | [(k, x)] => repr_str k +:+ ": " +:+ repr x
         | (k, x) :: d' => repr_str k +:+ ": " +:+ repr x +:+ ", " +:+ items d'
         end) d +:+ "}"
  end.

(** [str(v)] *)
Definition str (v : value) : string :=
  match v with
  | VStr s => s
  | _ => repr v
  end.

End Repr.

(** ** Effects

    The agent talks to four things outside the module: the vector store
    (behind the sentence encoder), the chat-completion service, Python's
    JSON decoder, and the iteration order of a [set] of strings, which
    CPython derives from string hashes.  They are the methods of [Env]. *)

Inductive exn :=
| ValueError
| TypeError
| AttributeError
| JSONDecodeError
| RuntimeError.

Class Env := {
  (** [collection.query(query_embeddings=[encode(clause)], n_results=k,
      include=["metadatas"]).get("metadatas", [[]])[0]] *)
  vector_query : string → nat → list value;
  (** the message content of [client.chat.completions.create] for a user
      query and the candidate records; [None] when the request fails *)
  llm_complete : string → list value → option string;
  (** [json.loads]; [None] stands for [json.JSONDecodeError] *)
  json_loads : string → option value;
  (** the order in which a [for] loop visits a set of strings *)
  set_iter : gset string → list string;
  set_iter_perm : ∀ s, set_iter s ≡ₚ elements s
}.

(** What [print] writes, one constructor per call site. *)
Inductive message :=
| PNoClauses
| PStructuredClause (clause : string)
| PStructuredEmpty (clause : string)
| PSemanticClause (clause : string)
| PSemanticEmpty (clause : string)
| PNoSemanticMatch
| PFoundSemantic (count : nat)
| PUsingIndexes
| PNoStructuredMatch
| PFoundStructured (count : nat)
| PListing (i : nat) (m : value)
| PRunSearch (query : string)
| PNoCandidates
| PRunRecommender
| PGlobal (metadatas : list value)
| PEnriched (rows : list value)
| PParseFailed (e : exn).

Inductive event :=
| Print (m : message)
| VectorQuery (clause : string) (k : nat)
| LLMRequest (user_query : string) (metadatas : list value).

(** The module-level variable [metadatas_global] and the trace of effects,
    latest event last. *)
Record world := World {
  trace : list event;
  metadatas_global : list value
}.

Definition initial_world : world := World [] [].

(** Computations that may raise, read and write the world. *)
Definition M (A : Type) : Type := world → (exn + A) * world.

Global Instance M_ret : MRet M := λ A x w, (inr x, w).
Global Instance M_bind : MBind M := λ A B f m w,
  match m w with
  | (inr x, w') => f x w'
  | (inl e, w') => (inl e, w')
  end.

Definition raise {A} (e : exn) : M A := λ w, (inl e, w).

Definition emit (ev : event) : M unit :=
  λ w, (inr tt, World (trace w ++ [ev]) (metadatas_global w)).

Definition print (m : message) : M unit := emit (Print m).

Definition read_global : M (list value) := λ w, (inr (metadatas_global w), w).

Definition write_global (ms : list value) : M unit :=
  λ w, (inr tt, World (trace w) ms).

(** Lift a pure computation that may raise. *)
Definition lift {A} (r : exn + A) : M A := λ w, (r, w).

(** [try: body except Exception as e: handler(e)] *)
Definition try_except {A} (body : M A) (handler : exn → M A) : M A := λ w,
  match body w with
  | (inr x, w') => (inr x, w')
  | (inl e, w') => handler e w'
  end.

Fixpoint for_each {A} (f : A → M unit) (l : list A) : M unit :=
  match l with
  | [] => mret tt
  | x :: l' => f x ;; for_each f l'
  end.

(** [enumerate(l, start)] *)
Fixpoint enumerate {A} (start : nat) (l : list A) : list (nat * A) :=
  match l with
  | [] => []
  | x :: l' => (start, x) :: enumerate (S start) l'
  end.

(** ** [class MovieSearchAgent] *)

Module MovieSearchAgent.
Import Re.
Local Open Scope regex_scope.

(** [self.indexes]: five inverted indexes, each a dictionary from a key
    to the records filed under it, in the order of the index file. *)
Record indexes := Indexes {
  actor : list (string * list value);
  director : list (string * list value);
  genre : list (string * list value);
  company : list (string * list value);
  year : list (string * list value)
}.

(** [(acted by|starring|featuring)\s+(.+)] *)
Definition actor_pattern : regex :=
  Grp 1 (Lit "acted by" ∣ Lit "starring" ∣ Lit "featuring") ⋅ plus CSpace ⋅ Grp 2 (plus CDot).

(** [(directed by|by director)\s+(.+)] *)
Definition director_pattern : regex :=
  Grp 1 (Lit "directed by" ∣ Lit "by director") ⋅ plus CSpace ⋅ Grp 2 (plus CDot).

(** [(produced by|production|distributed by)\s+(.+)] *)
Definition company_pattern : regex :=
  Grp 1 (Lit "produced by" ∣ Lit "production" ∣ Lit "distributed by") ⋅ plus CSpace
    ⋅ Grp 2 (plus CDot).

(** [(genre is|genre in|type is)\s+(.+)] *)
Definition genre_pattern : regex :=
  Grp 1 (Lit "genre is" ∣ Lit "genre in" ∣ Lit "type is") ⋅ plus CSpace ⋅ Grp 2 (plus CDot).

(** [(after|before|in)\s+(\d{4})] *)
Definition year_pattern : regex :=
  Grp 1 (Lit "after" ∣ Lit "before" ∣ Lit "in") ⋅ plus CSpace
    ⋅ Grp 2 (Rep CDigit 4 (Some 4%nat)).

Definition patterns : list regex :=
  [actor_pattern; director_pattern; company_pattern; genre_pattern; year_pattern].

Definition _is_clause_structured (clause : string) : bool :=
  let clause := Py.lower (Py.strip clause) in
  existsb (λ p, bool_decide (is_Some (search false p clause))) patterns.

(** [index.get(m.group(2).strip(), [])] *)
Definition index_get (index : list (string * list value)) (m : state) : exn + list value :=
  match group 2 m with
  | Some captured => inr (default [] (dict_get (Py.strip captured) index))
  | None => inl AttributeError
  end.

(** The loop over [self.indexes["year"].items()]. *)
Definition year_scan (relation : string) (year : Z) (items : list (string * list value))
    : list value :=
  foldl (λ results item,
           match Py.int (fst item) with
           | Some y_int =>
               if bool_decide (relation = "after") && bool_decide (y_int > year)
                  || bool_decide (relation = "before") && bool_decide (y_int < year)
                  || bool_decide (relation = "in") && bool_decide (y_int = year)
               then results ++ snd item
               else results
           | None => results
           end) [] items.

Definition _filter_clause (self : indexes) (clause : string) : exn + list value :=
  let clause := Py.lower (Py.strip clause) in
  match search false actor_pattern clause with
  | Some m => index_get (actor self) m
  | None =>
  match search false director_pattern clause with
  | Some m => index_get (director self) m
  | None =>
  match search false company_pattern clause with
  | Some m => index_get (company self) m
  | None =>
  match search false genre_pattern clause with
  | Some m => index_get (genre self) m
  | None =>
  match search false year_pattern clause with
  | Some m =>
      match group 1 m, group 2 m with
      | Some relation, Some year_text =>
          match Py.int year_text with
          | Some year_int => inr (year_scan relation year_int (year self))
          | None => inl ValueError
          end
      | _, _ => inl TypeError
      end
  | None => inr []
  end end end end end.

(** [set(json.dumps(m) for m in records)] *)
Definition key_set (records : list value) : gset string :=
  list_to_set (Json.dumps <$> records).

(** [set.intersection] applied to the unpacked list [sets]; Python raises
    [TypeError] when the list is empty. *)
Definition set_intersection (sets : list (gset string)) : exn + gset string :=
  match sets with
  | [] => inl TypeError
  | s :: sets' => inr (foldl (∩) s sets')
  end.

Section WithEnv.
Context `{Env}.

(** [[json.loads(m) for m in final_set]] *)
Fixpoint loads_all (keys : list string) : exn + list value :=
  match keys with
  | [] => inr []
  | key :: keys' =>
      match json_loads key, loads_all keys' with
      | Some v, inr vs => inr (v :: vs)
      | None, _ => inl JSONDecodeError
      | _, inl e => inl e
      end
  end.

(** The [for i, m in enumerate(final_results[:n_results], 1): print(...)]
    loop: the only use of [n_results]. *)
Definition print_listing (n_results : nat) (final_results : list value) : M unit :=
  for_each (λ im, print (PListing (fst im) (snd im)))
           (enumerate 1 (take n_results final_results)).

(** The code after the clause loop. *)
Definition search_merge (semantic_sets structured_sets : list (gset string))
    (n_results : nat) : M (list value) :=
  match semantic_sets with
  | _ :: _ =>
      final_set ← lift (set_intersection semantic_sets);
      if decide (final_set = ∅) then
        print PNoSemanticMatch ;; mret []
      else
        final_results ← lift (loads_all (set_iter final_set));
        print (PFoundSemantic (length final_results)) ;;
        print_listing n_results final_results ;;
        mret final_results
  | [] =>
      print PUsingIndexes ;;
      final_set ← lift (set_intersection structured_sets);
      if decide (final_set = ∅) then
        print PNoStructuredMatch ;; mret []
      else
        final_results ← lift (loads_all (set_iter final_set));
        print (PFoundStructured (length final_results)) ;;
        print_listing n_results final_results ;;
        mret final_results
  end.

(** The [for clause in clauses] loop, with its two early returns. *)
Fixpoint search_loop (self : indexes) (clauses : list string)
    (semantic_sets structured_sets : list (gset string)) (n_results : nat)
    : M (list value) :=
  match clauses with
  | [] => search_merge semantic_sets structured_sets n_results
  | clause :: clauses' =>
      if _is_clause_structured clause then
        print (PStructuredClause clause) ;;
        matches ← lift (_filter_clause self clause);
        match matches with
        | [] => print (PStructuredEmpty clause) ;; mret []
        | _ :: _ =>
            search_loop self clauses' semantic_sets
              (structured_sets ++ [key_set matches]) n_results
        end
      else
        print (PSemanticClause clause) ;;
        emit (VectorQuery clause 5) ;;
        match vector_query clause 5 with
        | [] => print (PSemanticEmpty clause) ;; mret []
        | (_ :: _) as metas =>
            search_loop self clauses' (semantic_sets ++ [key_set metas])
              structured_sets n_results
        end
  end.

(** [[c.strip() for c in query.lower().split(" and ") if c.strip()]] *)
Definition split_clauses (query : string) : list string :=
  List.filter (λ c, negb (bool_decide (c = "")))
              (Py.strip <$> Py.split " and " (Py.lower query)).

Definition search (self : indexes) (query : string) (n_results : nat) : M (list value) :=
  match split_clauses query with
  | [] => print PNoClauses ;; mret []
  | clauses => search_loop self clauses [] [] n_results
  end.

End WithEnv.
End MovieSearchAgent.

(** ** [class MovieRecommenderAgent] and [class MovieOrchestrator] *)

Module MovieRecommenderAgent.
Section WithEnv.
Context `{Env}.

(** [recommend]: [_format_movies_for_prompt] stores the candidates in
    [metadatas_global]; the prompt text built from the query and the
    candidates is sent to the chat-completion service; the answer is
    decoded.  The prompt is represented by the two values it is
    formatted from. *)
Definition recommend (user_query : string) (metadatas : list value) : M value :=
  write_global metadatas ;;
  emit (LLMRequest user_query metadatas) ;;
  match llm_complete user_query metadatas with
  | None => raise RuntimeError
  | Some content =>
      match json_loads (Py.strip content) with
      | Some parsed => mret parsed
      | None => raise ValueError
      end
  end.
End WithEnv.
End MovieRecommenderAgent.

Module MovieOrchestrator.
Section WithEnv.
Context `{Env}.

Definition run (self : MovieSearchAgent.indexes) (query : string) (n_results : nat)
    : M value :=
  print (PRunSearch query) ;;
  candidates ← MovieSearchAgent.search self query n_results;
  let candidates := take 5 candidates in
  match candidates with
  | [] => print PNoCandidates ;; mret (VList [])
  | _ :: _ =>
      print PRunRecommender ;;
      MovieRecommenderAgent.recommend query candidates
  end.
End WithEnv.
End MovieOrchestrator.

(** ** [parse_json_recommendations] *)

Module Reconciler.

Definition fence_open : string := "```json".
Definition fence_close : string := "```".

(** The clean-up of a [str] response before it is decoded. *)
Definition clean (response_text : string) : string :=
  let cleaned := Py.strip response_text in
  let cleaned :=
    if Py.startswith fence_open cleaned
    then Py.strip (Py.drop (String.length fence_open) cleaned)
    else cleaned in
  if Py.endswith fence_close cleaned
  then Py.strip (Py.drop_end 3 cleaned)
  else cleaned.

(** What [for rec in recommendations] visits: the items of a list, the
    keys of a dictionary, the characters of a string; anything else is
    not iterable. *)
Definition iterate (v : value) : exn + list value :=
  match v with
  | VList l => inr l
  | VDict d => inr (VStr <$> d.*1)
  | VStr s => inr (VStr <$> Py.chars s)
  | _ => inl TypeError
  end.

(** [str(d.get(k, "")).strip()] *)
Definition text_field (k : string) (d : list (string * value)) : string :=
  Py.strip (Repr.str (default (VStr "") (dict_get k d))).

(** [next((m for m in metadatas if str(m.get("title", "")).strip().lower()
    in title.lower()), None)]: the generator stops at the first record
    that passes; a record without [get] raises on the way. *)
Fixpoint first_match (title : string) (metadatas : list value)
    : exn + option (list (string * value)) :=
  match metadatas with
  | [] => inr None
  | VDict m :: metadatas' =>
      if Py.contains (Py.lower (text_field "title" m)) (Py.lower title)
      then inr (Some m)
      else first_match title metadatas'
  | _ :: _ => inl AttributeError
  end.

Definition metadata_fields : list string :=
  ["release_date"; "director"; "actors"; "rating"; "genres"; "overview";
   "runtime"; "popularity"; "production_companies"].

(** [match.get(field, "") if match else ""]; an empty dictionary is
    falsy as well. *)
Definition metadata (found : option (list (string * value))) (field : string) : value :=
  match found with
  | Some ((_ :: _) as m) => default (VStr "") (dict_get field m)
  | _ => VStr ""
  end.

Definition enriched_row (title reason : string) (found : option (list (string * value)))
    : value :=
  VDict (("title", VStr title) :: ("reason", VStr reason)
         :: ((λ field, (field, metadata found field)) <$> metadata_fields)).

(** The body of the [for rec in recommendations] loop, accumulated in
    order. *)
Fixpoint enrich (metadatas : list value) (recommendations : list value)
    : exn + list value :=
  match recommendations with
  | [] => inr []
  | VDict rec :: recommendations' =>
      let title := text_field "title" rec in
      let reason := text_field "reason" rec in
      match first_match title metadatas with
      | inl e => inl e
      | inr found =>
          match enrich metadatas recommendations' with
          | inl e => inl e
          | inr rows => inr (enriched_row title reason found :: rows)
          end
      end
  | _ :: recommendations' => enrich metadatas recommendations'
  end.

Section WithEnv.
Context `{Env}.

Definition parse_response (response_text : value) : exn + value :=
  match response_text with
  | VStr text =>
      match json_loads (clean text) with
      | Some parsed => inr parsed
      | None => inl JSONDecodeError
      end
  | VDict _ => inr response_text
  | _ => inl ValueError
  end.

Definition recommendations_of (parsed : value) : exn + value :=
  match parsed with
  | VList _ => inr parsed
  | VDict d => inr (default (VList []) (dict_get "recommendations" d))
  | _ => inl ValueError
  end.

Definition parse_json_recommendations (response_text : value) : M (list value) :=
  try_except
    (parsed ← lift (parse_response response_text);
     recommendations ← lift (recommendations_of parsed);
     metadatas ← read_global;
     print (PGlobal metadatas) ;;
     items ← lift (iterate recommendations);
     enriched ← lift (enrich metadatas items);
     print (PEnriched enriched) ;;
     mret enriched)
    (λ e, print (PParseFailed e) ;; mret []).
End WithEnv.
End Reconciler.

(** ** [class MovieOfferAgent] *)

Module MovieOfferAgent.
Import Re.
Local Open Scope regex_scope.

(** [\$\d+(\.\d{1,2})?] with the optional part as group [n] *)
Definition amount (n : nat) : regex :=
  Lit "$" ⋅ plus CDigit ⋅ opt (Grp n (Lit "." ⋅ Rep CDigit 1 (Some 2%nat))).

(** [(\$\d+(\.\d{1,2})?)\s*rent] *)
Definition rent_pattern : regex := Grp 1 (amount 2) ⋅ star CSpace ⋅ Lit "rent".

(** [(\$\d+(\.\d{1,2})?)\s*buy] *)
Definition buy_pattern : regex := Grp 1 (amount 2) ⋅ star CSpace ⋅ Lit "buy".

(** [\$\d+(\.\d{1,2})?], the pattern handed to [re.findall] *)
Definition price_pattern : regex := amount 1.

(** [\bstream|digital\b] *)
Definition streaming_pattern : regex := (Bnd ⋅ Lit "stream") ∣ (Lit "digital" ⋅ Bnd).

(** [\bDVD\b] *)
Definition dvd_pattern : regex := Bnd ⋅ Lit "DVD" ⋅ Bnd.

(** [\bBlu[- ]?ray\b] *)
Definition bluray_pattern : regex :=
  Bnd ⋅ Lit "Blu" ⋅ Rep (CSet ["-"; " "]%char) 0 (Some 1%nat) ⋅ Lit "ray" ⋅ Bnd.

Definition matched_price (m : option state) : string :=
  match m with
  | Some m => default "" (group 1 m)
  | None => ""
  end.

Definition _extract_prices_and_format (snippet : string) : string * string * string :=
  if decide (snippet = "") then ("", "", "")
  else
    let rent_price := matched_price (search true rent_pattern snippet) in
    let buy_price := matched_price (search true buy_pattern snippet) in
    let all_prices := findall false price_pattern snippet in
    let rent_price :=
      if bool_decide (rent_price = "") && bool_decide (1 ≤ length all_prices)%nat
      then default "" (all_prices !! 0%nat) else rent_price in
    let buy_price :=
      if bool_decide (buy_price = "") && bool_decide (2 ≤ length all_prices)%nat
      then default "" (all_prices !! 1%nat) else buy_price in
    let format_type :=
      if bool_decide (is_Some (search true streaming_pattern snippet)) then "Streaming"
      else if bool_decide (is_Some (search true dvd_pattern snippet)) then "DVD"
      else if bool_decide (is_Some (search true bluray_pattern snippet)) then "Blu-ray"
      else "Unknown" in
    (rent_price, buy_price, format_type).

End MovieOfferAgent.

(** ** A small catalogue for the examples *)

Module Demo.

Definition movie (title release_date director : string) (genres : list string) : value :=
  VDict [("title", VStr title); ("release_date", VStr release_date);
         ("director", VStr director); ("genres", VList (VStr <$> genres));
         ("rating", VFloat "7.5")].

Definition sully := movie "Sully" "2016-09-07" "Clint Eastwood" ["Drama"; "History"].
Definition arrival := movie "Arrival" "2016-11-10" "Denis Villeneuve" ["Drama"; "Science Fiction"].
Definition moonlight := movie "Moonlight" "2016-10-21" "Barry Jenkins" ["Drama"].
Definition room := movie "Room" "2015-10-16" "Lenny Abrahamson" ["Drama"; "Thriller"].
Definition boyhood := movie "Boyhood" "2014-06-05" "Richard Linklater" ["Drama"].
Definition whiplash := movie "Whiplash" "2014-10-10" "Damien Chazelle" ["Drama"; "Music"].

Definition catalogue : list value :=
  [sully; arrival; moonlight; room; boyhood; whiplash].

Definition demo_indexes : MovieSearchAgent.indexes :=
  MovieSearchAgent.Indexes
    [("tom hanks", [sully])]
    [("clint eastwood", [sully]); ("denis villeneuve", [arrival])]
    [("drama", catalogue); ("history", [sully]); ("music", [whiplash])]
    []
    [("2016", [sully; arrival; moonlight]); ("unknown", [room]);
     ("2015", [room]); ("2014", [boyhood; whiplash])].

(** Two payloads of the re-ranker, in the bare-array and the object
    shape. *)
Definition candidate : value :=
  VDict [("title", VStr "Arrival (2016)"); ("reason", VStr "First contact, told quietly.")].
Definition array_payload : value := VList [candidate].
Definition object_payload : value := VDict [("recommendations", VList [candidate])].

Definition known_values : list value := catalogue ++ [array_payload; object_payload].

(** One record written with its two fields in either order. *)
Definition sully_fields : list (string * value) :=
  [("title", VStr "Sully"); ("release_date", VStr "2016-09-07")].
Definition sully_fields_reordered : list (string * value) :=
  [("release_date", VStr "2016-09-07"); ("title", VStr "Sully")].

(** The environment of the examples.  The vector store answers two
    free-text clauses; the decoder is [json.loads] restricted to the
    serialisations of [known_values]; sets are visited in the order of
    [elements]. *)
#[export] Instance demo_env : Env := {|
  vector_query clause k :=
    take k (if decide (clause = "story about hope") then [room; arrival; moonlight]
            else if decide (clause = "first contact") then [arrival]
            else []);
  llm_complete user_query metadatas := Some (Json.dumps object_payload);
  json_loads text := List.find (λ v, bool_decide (Json.dumps v = text)) known_values;
  set_iter := elements;
  set_iter_perm s := reflexivity (elements s)
|}.

End Demo.

(** ** Vocabulary of the statements *)

Module Spec.
Import MovieSearchAgent.

(** Every character of [s] satisfies [f]. *)
Fixpoint all_chars (f : ascii → bool) (s : string) : bool :=
  match s with
  | "" => true
  | String c s' => f c && all_chars f s'
  end.

(** The character before offset [|s|] of a text that follows [p]. *)
Fixpoint last_char (p : option ascii) (s : string) : option ascii :=
  match s with
  | "" => p
  | String c s' => last_char (Some c) s'
  end.

(** The clauses of a query that go to the vector store, and the key sets
    of their hits, in query order. *)
Definition semantic_clauses (clauses : list string) : list string :=
  List.filter (λ c, negb (_is_clause_structured c)) clauses.

Definition semantic_sets `{Env} (clauses : list string) : list (gset string) :=
  (λ c, key_set (vector_query c 5)) <$> semantic_clauses clauses.

(** The requests sent to the recommendation service in a trace. *)
Definition llm_requests (events : list event) : list event :=
  List.filter (λ ev, match ev with LLMRequest _ _ => true | _ => false end) events.

(** Running [m] adds events that all satisfy [P] to the trace, whatever
    the outcome, and leaves [metadatas_global] as it was. *)
Definition emits {A} (P : event → Prop) (m : M A) : Prop :=
  ∀ w, metadatas_global (snd (m w)) = metadatas_global w
       ∧ ∃ evs, trace (snd (m w)) = trace w ++ evs ∧ Forall P evs.

Definition is_print (ev : event) : Prop :=
  match ev with Print _ => True | _ => False end.

(** What the clause loop may emit on the clauses [clauses]: messages, and
    vector-store queries for semantic clauses of the list. *)
Definition loop_event (clauses : list string) (ev : event) : Prop :=
  match ev with
  | Print _ => True
  | VectorQuery c _ => c ∈ clauses ∧ _is_clause_structured c = false
  | LLMRequest _ _ => False
  end.

(** The rows of an enrichment, or none when it raised and the handler
    of [parse_json_recommendations] took over. *)
Definition rows_of (r : exn + list value) : list value :=
  match r with
  | inr rows => rows
  | inl _ => []
  end.

(** A recommendation candidate (title, reason) as the re-ranker writes
    it, and a payload holding a list of them. *)
Definition candidate_value (c : string * string) : value :=
  VDict [("title", VStr (fst c)); ("reason", VStr (snd c))].

Definition response_of (candidates : list (string * string)) : value :=
  VDict [("recommendations", VList (candidate_value <$> candidates))].

(** The normalized title of a record: trimmed and lower-cased. *)
Definition record_title (m : list (string * value)) : string :=
  Py.lower (Py.strip (Repr.str (default (VStr "") (dict_get "title" m)))).

(** The first record, in list order, whose normalized title occurs in
    the normalized title of the candidate. *)
Definition matching_record (title : string) (records : list (list (string * value)))
    : option (list (string * value)) :=
  List.find (λ m, Py.contains (record_title m) (Py.lower (Py.strip title))) records.

(** The items of an object as [json.dumps] writes them between the
    braces. *)
Fixpoint dumps_items (d : list (string * value)) : string :=
  match d with
  | [] => ""
  | [(k, x)] => Json.dumps_str k +:+ ": " +:+ Json.dumps x
  | (k, x) :: d' => Json.dumps_str k +:+ ": " +:+ Json.dumps x +:+ ", " +:+ dumps_items d'
  end.

(** Items that are followed by another item. *)
Fixpoint dumps_leading (d : list (string * value)) : string :=
  match d with
  | [] => ""
  | (k, x) :: d' => Json.dumps_str k +:+ ": " +:+ Json.dumps x +:+ ", " +:+ dumps_leading d'
  end.

Definition hex_value (c : ascii) : N :=
  let n := N_of_ascii c in
  if (n <? 58)%N then (n - 48)%N else (n - 87)%N.

(** Reads the body of a string literal up to its closing quote: the
    decoded text and what follows the quote. *)
Fixpoint read_literal (s : string) : option (string * string) :=
  match s with
  | "" => None
  | String c s1 =>
      if decide (c = Json.quote) then Some ("", s1)
      else if decide (c = Json.backslash) then
        match s1 with
        | "" => None
        | String e s2 =>
            if decide (e = "u"%char) then
              match s2 with
              | String _ (String _ (String h (String l s3))) =>
                  prod_map (String (ascii_of_N (16 * hex_value h + hex_value l))) id
                    <$> read_literal s3
              | _ => None
              end
            else
              let ch :=
                if decide (e = "n"%char) then "010"%char
                else if decide (e = "r"%char) then "013"%char
                else if decide (e = "t"%char) then "009"%char
                else if decide (e = "b"%char) then "008"%char
                else if decide (e = "f"%char) then "012"%char
                else e in
              prod_map (String ch) id <$> read_literal s2
        end
      else prod_map (String c) id <$> read_literal s1
  end.

(** The clause reaches the year branch of [_filter_clause] and is read
    there as [relation] and [year_text]. *)
Definition year_clause (clause relation year_text : string) : Prop :=
  let c := Py.lower (Py.strip clause) in
  Re.search false actor_pattern c = None
  ∧ Re.search false director_pattern c = None
  ∧ Re.search false company_pattern c = None
  ∧ Re.search false genre_pattern c = None
  ∧ ∃ m, Re.search false year_pattern c = Some m
         ∧ Re.group 1 m = Some relation ∧ Re.group 2 m = Some year_text.

(** The records filed under the keys of an index that parse as an
    integer satisfying [P], in index order. *)
Definition records_under (P : Z → bool) (items : list (string * list value)) : list value :=
  concat (snd <$> List.filter (λ item, from_option P false (Py.int (fst item))) items).

End Spec.

(** ** What the planner computes *)

Module Plan.
Import MovieSearchAgent.
Section WithEnv.
Context `{Env}.

(** The records a clause resolves to: index matches for a structured
    clause, vector hits for a semantic one. *)
Definition hits (self : indexes) (clause : string) : list value :=
  if _is_clause_structured clause
  then Spec.rows_of (_filter_clause self clause)
  else vector_query clause 5.

Definition no_hits (self : indexes) (clause : string) : bool :=
  match hits self clause with [] => true | _ :: _ => false end.

(** The key sets of the structured clauses, in query order. *)
Definition structured_sets (self : indexes) (clauses : list string) : list (gset string) :=
  (λ c, key_set (Spec.rows_of (_filter_clause self c))) <$> List.filter _is_clause_structured clauses.

(** The decoded elements of the intersection of a list of key sets. *)
Definition merged (sets : list (gset string)) : exn + list value :=
  match set_intersection sets with
  | inr final_set => loads_all (set_iter final_set)
  | inl e => inl e
  end.

(** The result of a query, read off its clauses. *)
Definition planned_result (self : indexes) (clauses : list string) : exn + list value :=
  match clauses with
  | [] => inr []
  | _ :: _ =>
      if existsb (no_hits self) clauses then inr []
      else match Spec.semantic_sets clauses with
           | _ :: _ => merged (Spec.semantic_sets clauses)
           | [] => merged (structured_sets self clauses)
           end
  end.

End WithEnv.

(** The vector-store queries of a trace, with their neighbour counts. *)
Definition vector_queries (events : list event) : list (string * nat) :=
  omap (λ ev, match ev with VectorQuery c k => Some (c, k) | _ => None end) events.

End Plan.

(** ** More Python built-ins *)

Module Builtins.

(** [bool(v)]: what [if v], [not v] and [v or d] test. *)
Definition truthy (v : value) : bool :=
  match v with
  | VNone => false
  | VBool b => b
  | VInt z => negb (z =? 0)
  | VFloat r => negb (bool_decide (r = "0.0") || bool_decide (r = "-0.0"))
  | VStr s => negb (bool_decide (s = ""))
  | VList l => match l with [] => false | _ :: _ => true end
  | VDict d => match d with [] => false | _ :: _ => true end
  end.

(** [v or d] *)
Definition or_else (v d : value) : value := if truthy v then v else d.

(** [s.split()] without arguments: the maximal runs of characters that
    are not whitespace.  [cur] is the run being read, in reverse. *)
Fixpoint tokens_go (cur : option string) (s : string) : list string :=
  match s with
  | "" => option_list (String.rev <$> cur)
  | String c s' =>
      if Py.is_space c
      then option_list (String.rev <$> cur) ++ tokens_go None s'
      else tokens_go (Some (String c (default "" cur))) s'
  end.

Definition tokens (s : string) : list string := tokens_go None s.

(** [s.isdigit()] on ASCII text: not empty and digits only. *)
Definition isdigit (s : string) : bool :=
  negb (bool_decide (s = "")) && Spec.all_chars Py.is_digit s.

(** [sep.join(l)] *)
Fixpoint join (sep : string) (l : list string) : string :=
  match l with
  | [] => ""
  | [x] => x
  | x :: l' => x +:+ sep +:+ join sep l'
  end.

End Builtins.

(** ** The search branch of [main] in [Main.py] *)

Module Main.
Section WithEnv.
Context `{Env}.

(** [response = orchestrator.run(user_prompt)], then
    [recommendations = []] and, [if response],
    [recommendations = parse_json_recommendations(response)].  What the
    page draws from [recommendations] is left out. *)
Definition recommendations_for (self : MovieSearchAgent.indexes) (user_prompt : string)
    : M (list value) :=
  response ← MovieOrchestrator.run self user_prompt 5;
  if Builtins.truthy response
  then Reconciler.parse_json_recommendations response
  else mret [].

End WithEnv.
End Main.

(** ** [normalize_title] and [loose_match] *)

Module Titles.

(** [str(t or "").strip().lower()] *)
Definition normalize_title (t : value) : string :=
  Py.lower (Py.strip (Repr.str (Builtins.or_else t (VStr "")))).

Definition loose_match (a b : value) : bool :=
  let a_norm := normalize_title a in
  let b_norm := normalize_title b in
  Py.contains a_norm b_norm
  || Py.contains b_norm a_norm
  || existsb (λ token, Py.contains token b_norm) (Builtins.tokens a_norm)
  || existsb (λ token, Py.contains token a_norm) (Builtins.tokens b_norm).

End Titles.

(** ** [re.sub] with an empty replacement *)

Module ReSub.
Import Re.

(** [re.sub(r, "", s)]: the text with every non-overlapping match cut
    out, left to right.  An empty match removes nothing and the scan moves
    on by one character. *)
Fixpoint remove_go (fuel : nat) (ic : bool) (r : regex) (p : option ascii) (s : string)
    : string :=
  match fuel with
  | O => s
  | S fuel' =>
      let skip :=
        match s with
        | String c s' => String c (remove_go fuel' ic r (Some c) s')
        | "" => ""
        end in
      match match_at ic r p s with
      | Some m => if decide (rest m = s) then skip else remove_go fuel' ic r (prev m) (rest m)
      | None => skip
      end
  end.

Definition remove_all (ic : bool) (r : regex) (s : string) : string :=
  remove_go (S (String.length s)) ic r None s.

End ReSub.

(** ** [MovieOfferAgent._detect_platform] and [MovieOfferAgent.search_offers] *)

Module OfferSearch.
Import Re MovieOfferAgent.
Local Open Scope regex_scope.

Definition platforms : list string :=
  ["Netflix"; "Amazon"; "Apple TV"; "Google Play"; "Disney+"; "HBO Max"; "YouTube"].

(** [title] and [snippet] are [None] or text. *)
Definition _detect_platform (title snippet : option string) : string :=
  let combined := default "" title +:+ " " +:+ default "" snippet in
  match List.find (λ p, Py.contains (Py.lower p) (Py.lower combined)) platforms with
  | Some p => p
  | None =>
      if Py.contains "amazon.com" (Py.lower (default "" snippet))
         || Py.contains "amazon.com" (Py.lower (default "" title))
      then "Amazon"
      else ""
  end.

(** [-\d{2}] *)
Definition date_part : regex := Lit "-" ⋅ Rep CDigit 2 (Some 2%nat).

(** [\s*\(\d{4}(-\d{2}){0,2}\)]: the bounded repetition of the group is
    written as two nested options, which are tried in the same greedy
    order: two parts, then one, then none. *)
Definition year_suffix_pattern : regex :=
  star CSpace ⋅ Lit "(" ⋅ Rep CDigit 4 (Some 4%nat)
    ⋅ opt (Grp 1 date_part ⋅ opt (Grp 1 date_part)) ⋅ Lit ")".

(** [re.sub(r"\s*\(\d{4}(-\d{2}){0,2}\)", "", movie_title).strip()] *)
Definition cleaned_title (movie_title : string) : string :=
  Py.strip (ReSub.remove_all false year_suffix_pattern movie_title).

Definition offer_query (cleaned : string) : string :=
  "buy rent stream " +:+ cleaned
  +:+ " movie site:justwatch.com OR site:amazon.com OR site:apple.com OR site:google.com/movies".

(** What [requests.get] hands back: the status code and the decoded body,
    [None] when [response.json()] would raise. *)
Record response := Response {
  status_code : nat;
  json : option value
}.

(** [v or ""] where text is needed next: a truthy value that is not text
    makes [re.search] or the string concatenation raise [TypeError]. *)
Definition text_or_blank (v : value) : exn + string :=
  match Builtins.or_else v (VStr "") with
  | VStr s => inr s
  | _ => inl TypeError
  end.

(** [", ".join(filter(None, [rent_price, buy_price]))] *)
Definition costs (rent_price buy_price : string) : string :=
  Builtins.join ", " (List.filter (λ s, negb (bool_decide (s = ""))) [rent_price; buy_price]).

(** The body of the [for idx, r in enumerate(results, start=1)] loop:
    [None] when the entry is skipped for want of a platform. *)
Definition offer_of (idx : nat) (r : value) : exn + option value :=
  match r with
  | VDict r =>
      match text_or_blank (default (VStr "") (dict_get "snippet" r)) with
      | inl e => inl e
      | inr snippet =>
          let '(rent_price, buy_price, format_type) := _extract_prices_and_format snippet in
          match text_or_blank (default (VStr "") (dict_get "title" r)) with
          | inl e => inl e
          | inr title =>
              let platform := _detect_platform (Some title) (Some snippet) in
              if bool_decide (platform = "") then inr None
              else inr (Some (VDict
                     [("#", VInt (Z.of_nat idx));
                      ("Title", default (VStr "") (dict_get "title" r));
                      ("Platform", VStr platform);
                      ("Format", VStr format_type);
                      ("Rent", VStr rent_price);
                      ("Buy", VStr buy_price);
                      ("Costs", VStr (costs rent_price buy_price));
                      ("URL", default (VStr "") (dict_get "link" r))]))
          end
      end
  | _ => inl AttributeError
  end.

Fixpoint offers_of (results : list (nat * value)) : exn + list value :=
  match results with
  | [] => inr []
  | (idx, r) :: results' =>
      match offer_of idx r with
      | inl e => inl e
      | inr offer =>
          match offers_of results' with
          | inl e => inl e
          | inr offers => inr (option_list offer ++ offers)
          end
      end
  end.

(** [search_offers]: [http_get q] stands for
    [requests.get("https://serpapi.com/search", params=...)] with the
    agent's country and key and the query [q].  The two [print]s are left
    out. *)
Definition search_offers (http_get : string → response) (movie_title : string)
    : exn + list value :=
  let response := http_get (offer_query (cleaned_title movie_title)) in
  if bool_decide (status_code response ≠ 200%nat) then inr []
  else
    match json response with
    | None => inl JSONDecodeError
    | Some (VDict data) =>
        let results := default (VList []) (dict_get "organic_results" data) in
        if Builtins.truthy results then
          match Reconciler.iterate results with
          | inl e => inl e
          | inr items => offers_of (enumerate 1 items)
          end
        else inr []
    | Some _ => inl AttributeError
    end.

End OfferSearch.

(** ** [class IndexBuilder] of [extractmovie/createindexes.py] *)

Module IndexBuilder.
Import MovieSearchAgent.

(** [index[key].append(movie)] on a [defaultdict(list)]: a new key goes to
    the end of the dictionary. *)
Fixpoint append_under (key : string) (movie : value) (index : list (string * list value))
    : list (string * list value) :=
  match index with
  | [] => [(key, [movie])]
  | (k, movies) :: index' =>
      if decide (k = key) then (k, movies ++ [movie]) :: index'
      else (k, movies) :: append_under key movie index'
  end.

(** [if name: index[name.lower()].append(movie)]; a truthy name that is
    not text has no [lower]. *)
Definition add_name (name : value) (movie : value) (index : list (string * list value))
    : exn + list (string * list value) :=
  if Builtins.truthy name then
    match name with
    | VStr s => inr (append_under (Py.lower s) movie index)
    | _ => inl AttributeError
    end
  else inr index.

Fixpoint add_names (names : list value) (movie : value) (index : list (string * list value))
    : exn + list (string * list value) :=
  match names with
  | [] => inr index
  | name :: names' =>
      match add_name name movie index with
      | inl e => inl e
      | inr index' => add_names names' movie index'
      end
  end.

(** [names = movie.get(field, []); if isinstance(names, list): for ...] *)
Definition add_listed (field : string) (m : list (string * value)) (movie : value)
    (index : list (string * list value)) : exn + list (string * list value) :=
  match default (VList []) (dict_get field m) with
  | VList names => add_names names movie index
  | _ => inr index
  end.

(** [movie.get("release_date", "").split("-")[0] if movie.get("release_date") else ""] *)
Definition release_year (m : list (string * value)) : exn + string :=
  match dict_get "release_date" m with
  | Some v =>
      if Builtins.truthy v then
        match v with
        | VStr s => inr (hd "" (Py.split "-" s))
        | _ => inl AttributeError
        end
      else inr ""
  | None => inr ""
  end.

(** One turn of [for idx, movie in enumerate(movies, 1)]. *)
Definition add_movie (self : indexes) (movie : value) : exn + indexes :=
  match movie with
  | VDict m =>
      match release_year m with
      | inl e => inl e
      | inr y =>
          let year' :=
            if negb (bool_decide (y = "")) && Builtins.isdigit y
            then append_under y movie (year self) else year self in
          match add_listed "actors" m movie (actor self) with
          | inl e => inl e
          | inr actor' =>
              match add_name (default VNone (dict_get "director" m)) movie (director self) with
              | inl e => inl e
              | inr director' =>
                  match add_listed "production_companies" m movie (company self) with
                  | inl e => inl e
                  | inr company' =>
                      match add_listed "genres" m movie (genre self) with
                      | inl e => inl e
                      | inr genre' => inr (Indexes actor' director' genre' company' year')
                      end
                  end
              end
          end
      end
  | _ => inl AttributeError
  end.

Fixpoint build_from (self : indexes) (movies : list value) : exn + indexes :=
  match movies with
  | [] => inr self
  | movie :: movies' =>
      match add_movie self movie with
      | inl e => inl e
      | inr self' => build_from self' movies'
      end
  end.

(** [IndexBuilder().build_indexes(movies)] on a fresh builder. *)
Definition build_indexes (movies : list value) : exn + indexes :=
  build_from (Indexes [] [] [] [] []) movies.

End IndexBuilder.

(** ** What a built index holds *)

Module Filing.
Import MovieSearchAgent IndexBuilder.

(** [movie.get(field, [])] when it is a list, nothing otherwise. *)
Definition names_listed (field : string) (m : list (string * value)) : list value :=
  match default (VList []) (dict_get field m) with
  | VList names => names
  | _ => []
  end.

(** [movie.get("director")] as a list of one. *)
Definition director_listed (m : list (string * value)) : list value :=
  [default VNone (dict_get "director" m)].

(** The name is filed under [key]: it is non-empty text whose lower-case
    form is [key]. *)
Definition files_under (key : string) (name : value) : bool :=
  match name with
  | VStr s => negb (bool_decide (s = "")) && bool_decide (Py.lower s = key)
  | _ => false
  end.

(** The movies that list a name filed under [key], in catalogue order,
    once for every such name. *)
Definition filed (names_of : list (string * value) → list value) (key : string)
    (movies : list value) : list value :=
  mjoin ((λ movie,
            match movie with
            | VDict m => (λ _, movie) <$> List.filter (files_under key) (names_of m)
            | _ => []
            end) <$> movies).

(** The key of the year index a movie goes under, if any. *)
Definition year_key (movie : value) : option string :=
  match movie with
  | VDict m =>
      match release_year m with
      | inr y => if negb (bool_decide (y = "")) && Builtins.isdigit y then Some y else None
      | inl _ => None
      end
  | _ => None
  end.

Definition filed_by_year (key : string) (movies : list value) : list value :=
  List.filter (λ movie, bool_decide (year_key movie = Some key)) movies.



Definition year_text (k : string) : Prop :=
  Builtins.isdigit k = true ∧ ∃ y, Py.int k = Some y ∧ 0 ≤ y.

End Filing.

(** ** The rows of a reconciliation *)

Module Rows.
Import Reconciler.

(** The items of a payload that pass [isinstance(rec, dict)]. *)
Definition objects (items : list value) : list (list (string * value)) :=
  omap (λ v, match v with VDict d => Some d | _ => None end) items.

(** The row written for the recommendation [rec] when the record
    [found] was matched. *)
Definition row_from (found : option (list (string * value))) (rec : list (string * value))
    : value :=
  enriched_row (text_field "title" rec) (text_field "reason" rec) found.

End Rows.

(** ** Characters of a title *)

Module Cleaning.

(** Any character but the opening parenthesis. *)
Definition not_paren (c : ascii) : bool := negb (bool_decide (c = "("%char)).

End Cleaning.

(** ** More example data *)

Module Films.
Import MovieSearchAgent Demo.

(** A catalogue with casts, as the index builder reads it. *)
Definition film (title release_date director : string) (actors : list string) : value :=
  VDict [("title", VStr title); ("release_date", VStr release_date);
         ("director", VStr director); ("actors", VList (VStr <$> actors));
         ("genres", VList [VStr "Drama"])].

Definition films : list value :=
  [film "Sully" "2016-09-07" "Clint Eastwood" ["Tom Hanks"; "Aaron Eckhart"];
   film "The Post" "2017-12-22" "Steven Spielberg" ["Meryl Streep"; "TOM HANKS"];
   film "Arrival" "2016-11-10" "Denis Villeneuve" ["Amy Adams"]].

Definition built : indexes :=
  match IndexBuilder.build_indexes films with
  | inr idx => idx
  | inl _ => Indexes [] [] [] [] []
  end.

(** The environment of the examples with a recommendation service that
    answers with a bare array. *)
Definition array_env : Env := {|
  vector_query := @vector_query demo_env;
  llm_complete user_query metadatas := Some (Json.dumps array_payload);
  json_loads := @json_loads demo_env;
  set_iter := elements;
  set_iter_perm s := reflexivity (elements s)
|}.

(** An answer of the offer search: three organic results, the second
    without a platform. *)
Definition organic : list value :=
  [VDict [("title", VStr "Watch Sully | Netflix"); ("snippet", VStr "Stream it now.");
          ("link", VStr "https://www.netflix.com/title/80102052")];
   VDict [("title", VStr "Sully, reviewed"); ("snippet", VStr "A fine film.")];
   VDict [("title", VStr "Sully"); ("snippet", VStr "$3.99 rent or $9.99 buy on amazon.com");
          ("link", VStr "https://www.amazon.com/dp/B01LTHZVLG")]].

Definition serp (q : string) : OfferSearch.response :=
  OfferSearch.Response 200 (Some (VDict [("organic_results", VList organic)])).

Definition sully_offers : list value :=
  Spec.rows_of (OfferSearch.search_offers serp "Sully (2016)").

(** A stored record without a title. *)
Definition untitled : list (string * value) :=
  [("release_date", VStr "1999-01-01"); ("director", VStr "Nobody")].

End Films.

(** * Properties *)

Import Spec.

(** ** Text *)

Section TextFacts.
Implicit Types (s t u : string) (c : ascii).

Lemma str_app_cons c s t : String c s +:+ t = String c (s +:+ t).
Proof. reflexivity. Qed.

Lemma str_app_empty_l s : "" +:+ s = s.
Proof. reflexivity. Qed.

Lemma str_app_empty_r s : s +:+ "" = s.
Proof. induction s as [|c s IH]; [done|]. by rewrite str_app_cons, IH. Qed.

Lemma str_app_assoc s t u : (s +:+ t) +:+ u = s +:+ (t +:+ u).
Proof. induction s as [|c s IH]; [done|]. by rewrite !str_app_cons, IH. Qed.

Lemma str_length_app s t : String.length (s +:+ t) = (String.length s + String.length t)%nat.
Proof. induction s as [|c s IH]; [done|]. rewrite str_app_cons. simpl. by rewrite IH. Qed.

Lemma str_take_app s t : Py.take (String.length s) (s +:+ t) = s.
Proof. induction s as [|c s IH]; [by destruct t|]. rewrite str_app_cons. simpl. by rewrite IH. Qed.

Lemma str_take_consumed s t :
  Py.take (String.length (s +:+ t) - String.length t) (s +:+ t) = s.
Proof.
  rewrite str_length_app.
  replace (String.length s + String.length t - String.length t)%nat
    with (String.length s) by lia.
  apply str_take_app.
Qed.

End TextFacts.

(** ** The matcher calls its continuation *)

Section MatcherFacts.
Import Re.
Context {R : Type} (ic : bool).
Implicit Types (k : state → option R) (x : R).

Lemma match_lit_inv l st k x :
  match_lit ic l st k = Some x →
  ∃ st', k st' = Some x ∧ caps st' = caps st.
Proof.
  revert st. induction l as [|a l IH]; intros st Hm; simpl in Hm.
  - eauto.
  - destruct (rest st) as [|c s'] eqn:Hs; [done|].
    case_bool_decide; [|done].
    apply IH in Hm as (st' & Hk & Hc). eauto.
Qed.

(** A repetition hands over after a run [t] of characters of the class,
    within the bounds, with the captures untouched. *)
Lemma match_rep_inv cl lo hi p s cs k x :
  match_rep ic cl lo hi p s cs k = Some x →
  ∃ t s' p', s = t +:+ s' ∧ all_chars (in_class ic cl) t = true
    ∧ (lo ≤ String.length t)%nat
    ∧ (∀ h, hi = Some h → String.length t ≤ h)%nat
    ∧ k (State p' s' cs) = Some x.
Proof.
  revert lo hi p. induction s as [|c s IH]; intros lo hi p Hm; simpl in Hm.
  - destruct (decide (lo = 0%nat)) as [->|]; [|done].
    exists "", "", p. repeat split; auto; simpl; intros; lia.
  - assert (Hstop : (if decide (lo = 0%nat) then k (State p (String c s) cs) else None)
                    = Some x →
            ∃ t s' p', String c s = t +:+ s' ∧ all_chars (in_class ic cl) t = true
              ∧ (lo ≤ String.length t)%nat
              ∧ (∀ h, hi = Some h → String.length t ≤ h)%nat
              ∧ k (State p' s' cs) = Some x).
    { destruct (decide (lo = 0%nat)) as [->|]; [|done]. intros Hk.
      exists "", (String c s), p. repeat split; auto; simpl; intros; lia. }
    destruct (in_class ic cl c && negb (bool_decide (hi = Some 0%nat))) eqn:Hc; [|auto].
    destruct (match_rep ic cl (Nat.pred lo) (Nat.pred <$> hi) (Some c) s cs k) eqn:Hr; [|auto].
    simplify_eq. apply andb_true_iff in Hc as [Hin Hhi].
    apply negb_true_iff, bool_decide_eq_false in Hhi.
    apply IH in Hr as (t & s' & p' & -> & Hall & Hlo & Hhi' & Hk).
    exists (String c t), s', p'. rewrite str_app_cons. simpl. rewrite Hin, Hall.
    repeat split; auto; [lia|].
    intros h ->. destruct h as [|h]; [done|]. specialize (Hhi' h eq_refl). lia.
Qed.

Lemma run_inv r st k x : run ic r st k = Some x → ∃ st', k st' = Some x.
Proof.
  revert st k. induction r as [|l|cl lo hi|r1 IH1 r2 IH2|r1 IH1 r2 IH2|n r IH|];
    intros st k Hm; simpl in Hm.
  - eauto.
  - apply match_lit_inv in Hm as (st' & ? & _). eauto.
  - apply match_rep_inv in Hm as (? & s' & p' & _ & _ & _ & _ & ?). eauto.
  - apply IH1 in Hm as (st1 & Hm). by apply IH2 in Hm.
  - destruct (run ic r1 st k) eqn:H1; simplify_eq; eauto.
  - apply IH in Hm as (st1 & Hm). eauto.
  - destruct (at_boundary st); [eauto|done].
Qed.
End MatcherFacts.

Section SearchFacts.
Import Re.
Local Open Scope regex_scope.

Lemma search_from_inv ic r p s m :
  search_from ic r p s = Some m → ∃ p' s', match_at ic r p' s' = Some m.
Proof.
  revert p. induction s as [|c s IH]; intros p Hs; simpl in Hs.
  - destruct (match_at ic r p "") eqn:Hm; simplify_eq. eauto.
  - destruct (match_at ic r p (String c s)) eqn:Hm; simplify_eq; eauto.
Qed.

(** All five clause patterns have the shape
    [(group 1) class-repetition (group 2: class-repetition)]: a match
    always carries both groups, and group 2 is a run of its class. *)
Lemma two_group_match ic r1 c1 lo1 hi1 c2 lo2 hi2 p s m :
  match_at ic (Grp 1 r1 ⋅ Rep c1 lo1 hi1 ⋅ Grp 2 (Rep c2 lo2 hi2)) p s = Some m →
  ∃ t1 t2, group 1 m = Some t1 ∧ group 2 m = Some t2
    ∧ all_chars (in_class ic c2) t2 = true
    ∧ (lo2 ≤ String.length t2)%nat
    ∧ (∀ h, hi2 = Some h → String.length t2 ≤ h)%nat.
Proof.
  unfold match_at. simpl. intros Hm.
  apply run_inv in Hm as (st1 & Hm). simpl in Hm.
  apply match_rep_inv in Hm as (_ & s1 & p1 & _ & _ & _ & _ & Hm). simpl in Hm.
  apply match_rep_inv in Hm as (t2 & s2 & p2 & -> & Hall & Hlo & Hhi & Hm).
  simplify_eq. rewrite str_take_consumed.
  eexists _, t2. repeat split; eauto.
Qed.

Lemma two_group_search ic r1 c1 lo1 hi1 c2 lo2 hi2 s m :
  search ic (Grp 1 r1 ⋅ Rep c1 lo1 hi1 ⋅ Grp 2 (Rep c2 lo2 hi2)) s = Some m →
  ∃ t1 t2, group 1 m = Some t1 ∧ group 2 m = Some t2
    ∧ all_chars (in_class ic c2) t2 = true
    ∧ (lo2 ≤ String.length t2)%nat
    ∧ (∀ h, hi2 = Some h → String.length t2 ≤ h)%nat.
Proof.
  intros (p' & s' & Hm)%search_from_inv. by eapply two_group_match.
Qed.

(** A match found at some offset is enough for [re.search] to succeed. *)
Lemma search_from_app ic r p before s :
  is_Some (match_at ic r (last_char p before) s) →
  is_Some (search_from ic r p (before +:+ s)).
Proof.
  revert p. induction before as [|c before IH]; intros p Hm; simpl in Hm.
  - rewrite str_app_empty_l. destruct s; simpl; destruct Hm as [m ->]; eauto.
  - rewrite str_app_cons. simpl.
    destruct (match_at ic r p (String c (before +:+ s))); eauto.
Qed.
End SearchFacts.

(** ** [int] on a run of digits *)

Section IntFacts.

Lemma digit_not_space c : Py.is_digit c = true → Py.is_space c = false.
Proof.
  unfold Py.is_digit, Py.is_space. intros H.
  apply andb_true_iff in H as [H1 H2].
  apply N.leb_le in H1, H2.
  apply orb_false_iff; split; apply andb_false_iff.
  - right. apply N.leb_gt. lia.
  - right. apply N.leb_gt. lia.
Qed.

Lemma lstrip_digits s : all_chars Py.is_digit s = true → Py.lstrip s = s.
Proof.
  destruct s as [|c s]; [done|]. simpl. intros [Hc _]%andb_true_iff.
  by rewrite (digit_not_space c Hc).
Qed.

Lemma rstrip_digits s : all_chars Py.is_digit s = true → Py.rstrip s = s.
Proof.
  induction s as [|c s IH]; [done|]. simpl. intros [Hc Hs]%andb_true_iff.
  rewrite (IH Hs). rewrite (digit_not_space c Hc). by destruct s.
Qed.

Lemma int_body_digits b s :
  all_chars Py.is_digit s = true → (b = true ∨ s ≠ "") → Py.int_body b s = Some s.
Proof.
  revert b. induction s as [|c s IH]; intros b Hall Hne; simpl.
  - destruct Hne as [->|]; done.
  - simpl in Hall. apply andb_true_iff in Hall as [Hc Hs].
    rewrite Hc, (IH true Hs); auto.
Qed.

Lemma int_digits s :
  all_chars Py.is_digit s = true → s ≠ "" → Py.int s = Some (Py.digits_value 0 s).
Proof.
  intros Hall Hne. unfold Py.int, Py.strip.
  rewrite (rstrip_digits s Hall), (lstrip_digits s Hall).
  destruct s as [|c s]; [done|].
  pose proof Hall as Hall'. simpl in Hall'. apply andb_true_iff in Hall' as [Hc _].
  assert (Hb : Py.int_body false (String c s) = Some (String c s))
    by (apply int_body_digits; auto).
  destruct c as [[] [] [] [] [] [] [] []]; try discriminate Hc; by rewrite Hb.
Qed.
End IntFacts.

(** ** [_filter_clause] never raises *)

Section FilterFacts.
Import Re MovieSearchAgent.

Lemma index_get_total index pat s m :
  (pat = actor_pattern ∨ pat = director_pattern ∨ pat = company_pattern ∨ pat = genre_pattern) →
  Re.search false pat s = Some m →
  ∃ records, index_get index m = inr records.
Proof.
  intros Hpat Hs. unfold index_get.
  assert (∃ t, group 2 m = Some t) as [t ->]; [|eauto].
  destruct Hpat as [-> | [-> | [-> | ->]]];
    apply two_group_search in Hs as (? & t & _ & ? & _); eauto.
Qed.

(** The year pattern captures a relation and four digits, which [int]
    accepts. *)
Lemma year_match_groups s m :
  Re.search false year_pattern s = Some m →
  ∃ relation year_text,
    group 1 m = Some relation ∧ group 2 m = Some year_text
    ∧ Py.int year_text = Some (Py.digits_value 0 year_text).
Proof.
  intros Hs. apply two_group_search in Hs as (t1 & t2 & H1 & H2 & Hall & Hlo & _).
  exists t1, t2. repeat split; auto. apply int_digits; [done|].
  intros ->. simpl in Hlo. lia.
Qed.

Lemma _filter_clause_total self clause :
  ∃ records, _filter_clause self clause = inr records.
Proof.
  unfold _filter_clause. cbv zeta. set (c := Py.lower (Py.strip clause)).
  destruct (Re.search false actor_pattern c) eqn:H1;
    [eapply (index_get_total _ actor_pattern); eauto|].
  destruct (Re.search false director_pattern c) eqn:H2;
    [eapply (index_get_total _ director_pattern); eauto|].
  destruct (Re.search false company_pattern c) eqn:H3;
    [eapply (index_get_total _ company_pattern); eauto|].
  destruct (Re.search false genre_pattern c) eqn:H4;
    [eapply (index_get_total _ genre_pattern); eauto 6|].
  destruct (Re.search false year_pattern c) eqn:H5; [|eauto].
  apply year_match_groups in H5 as (rel & y & -> & -> & ->). eauto.
Qed.
End FilterFacts.

(** ** The clause loop of [search] *)

Section LoopFacts.
Import MovieSearchAgent.
Context `{Env}.
Implicit Types (w : world) (sem str : list (gset string)).

Lemma print_listing_ok n results w :
  ∃ evs, print_listing n results w
         = (inr tt, World (trace w ++ evs) (metadatas_global w))
         ∧ llm_requests evs = [].
Proof.
  unfold print_listing, print, emit. generalize (enumerate 1 (take n results)) as l.
  intros l. revert w. induction l as [|im l IH]; intros w; simpl.
  - exists []. rewrite app_nil_r. by destruct w.
  - unfold mbind, M_bind.
    destruct (IH (World (trace w ++ [Print (PListing im.1 im.2)]) (metadatas_global w)))
      as (evs & -> & Hevs).
    simpl. exists (Print (PListing im.1 im.2) :: evs). by rewrite <- app_assoc.
Qed.

Lemma set_iter_empty : set_iter ∅ = [].
Proof.
  apply Permutation_nil_r. rewrite set_iter_perm. by rewrite elements_empty.
Qed.

(** With a semantic set at hand the merge is decided by the semantic
    sets alone. *)
Lemma search_merge_semantic s sem str n w :
  fst (search_merge (s :: sem) str n w) = loads_all (set_iter (foldl (∩) s sem)).
Proof.
  unfold search_merge, mbind, M_bind, lift, set_intersection. simpl.
  destruct (decide (foldl (∩) s sem = ∅)) as [->|Hne]; simpl.
  - by rewrite set_iter_empty.
  - destruct (loads_all (set_iter (foldl (∩) s sem))) as [e|results]; simpl; [done|].
    destruct (print_listing_ok n results
      (World (trace w ++ [Print (PFoundSemantic (length results))]) (metadatas_global w)))
      as (evs & -> & _).
    done.
Qed.
End LoopFacts.

(** ** What a computation emits *)

Section Emits.
Context `{Env}.

Lemma emits_ret {A} P (x : A) : emits P (mret x).
Proof. intros w. split; [done|]. exists []. by rewrite app_nil_r. Qed.

Lemma emits_lift {A} P (r : exn + A) : emits P (lift r).
Proof. intros w. split; [done|]. exists []. by rewrite app_nil_r. Qed.

Lemma emits_bind {A B} P (m : M A) (f : A → M B) :
  emits P m → (∀ x, emits P (f x)) → emits P (m ≫= f).
Proof.
  intros Hm Hf w. unfold mbind, M_bind.
  destruct (Hm w) as [Hg (evs & Ht & HP)].
  destruct (m w) as [[e|x] w1]; simpl in *; [eauto|].
  destruct (Hf x w1) as [Hg' (evs' & Ht' & HP')].
  split; [congruence|]. exists (evs ++ evs').
  rewrite Ht', Ht, <- app_assoc. split; [done|]. by apply Forall_app.
Qed.

Lemma emits_event (P : event → Prop) ev : P ev → emits P (emit ev).
Proof. intros HP w. split; [done|]. exists [ev]. split; [done|]. by constructor. Qed.

Lemma emits_print (P : event → Prop) msg : P (Print msg) → emits P (print msg).
Proof. apply emits_event. Qed.

Lemma emits_for_each {A} P (f : A → M unit) l :
  (∀ x, emits P (f x)) → emits P (for_each f l).
Proof.
  intros Hf. induction l as [|x l IH]; simpl; [apply emits_ret|].
  apply emits_bind; auto.
Qed.

Lemma emits_mono {A} (P Q : event → Prop) (m : M A) :
  (∀ ev, P ev → Q ev) → emits P m → emits Q m.
Proof.
  intros HPQ Hm w. destruct (Hm w) as [Hg (evs & Ht & HP)].
  split; [done|]. exists evs. split; [done|]. by eapply Forall_impl.
Qed.

Import MovieSearchAgent.

Lemma search_merge_emits sem str n : emits is_print (search_merge sem str n).
Proof.
  unfold search_merge, print_listing.
  destruct sem; repeat first
    [ apply emits_bind; [|intros ?] | by apply emits_print | apply emits_lift
    | apply emits_ret | apply emits_for_each; intros ? | case_decide ].
Qed.

Lemma loop_event_print clauses ev : is_print ev → loop_event clauses ev.
Proof. by destruct ev. Qed.

Lemma loop_event_cons c clauses ev : loop_event clauses ev → loop_event (c :: clauses) ev.
Proof. destruct ev; simpl; [done| |done]. intros [? ?]. split; [by right|done]. Qed.

Lemma search_loop_emits self clauses sem str n :
  emits (loop_event clauses) (search_loop self clauses sem str n).
Proof.
  revert sem str. induction clauses as [|c clauses IH]; intros sem str; simpl.
  - eapply emits_mono; [apply loop_event_print|apply search_merge_emits].
  - assert (Hrec : ∀ sem' str', emits (loop_event (c :: clauses))
                                  (search_loop self clauses sem' str' n)).
    { intros. eapply emits_mono; [apply loop_event_cons|apply IH]. }
    destruct (_is_clause_structured c) eqn:Hc.
    + apply emits_bind; [by apply emits_print|intros _].
      apply emits_bind; [apply emits_lift|intros [|m ms]]; [|apply Hrec].
      apply emits_bind; [by apply emits_print|intros _; apply emits_ret].
    + apply emits_bind; [by apply emits_print|intros _].
      apply emits_bind; [|intros _].
      { apply emits_event. simpl. split; [by left|done]. }
      destruct (vector_query c 5); [|apply Hrec].
      apply emits_bind; [by apply emits_print|intros _; apply emits_ret].
Qed.

Lemma search_emits self query n :
  emits (loop_event (split_clauses query)) (search self query n).
Proof.
  unfold search. destruct (split_clauses query) eqn:Hq.
  - apply emits_bind; [by apply emits_print|intros _; apply emits_ret].
  - apply search_loop_emits.
Qed.

Lemma loop_events_no_request clauses evs :
  Forall (loop_event clauses) evs → llm_requests evs = [].
Proof.
  unfold llm_requests. induction 1 as [|ev evs Hev _ IH]; [done|].
  simpl. by destruct ev.
Qed.
End Emits.

(** ** The orchestrator without candidates *)

Section Orchestrator.
Context `{Env}.
Import MovieSearchAgent MovieOrchestrator.

(** C10.  When the search agent hands [run] no candidate record, [run]
    returns the empty list, and between its start and its end no request
    has gone to the recommendation service: the requests in the trace are
    the ones that were there before, and [metadatas_global] is untouched. *)
Theorem run_without_candidates self query n w :
  fst (search self query n (snd (print (PRunSearch query) w))) = inr [] →
  fst (run self query n w) = inr (VList [])
  ∧ llm_requests (trace (snd (run self query n w))) = llm_requests (trace w)
  ∧ metadatas_global (snd (run self query n w)) = metadatas_global w.
Proof.
  intros Hempty. unfold run, mbind, M_bind.
  pose proof (search_emits self query n (snd (print (PRunSearch query) w))) as Hq.
  destruct (print (PRunSearch query) w) as [r0 w0] eqn:Hp.
  unfold print, emit in Hp. simplify_eq. simpl in *.
  destruct (search self query n _) as [r1 w1]. simpl in *. subst r1. simpl.
  destruct Hq as [Hg (evs & Ht & Hl)]. simpl in *.
  apply loop_events_no_request in Hl.
  repeat split; [|done].
  rewrite Ht. unfold llm_requests in *.
  rewrite !List.filter_app, Hl. simpl. by rewrite !app_nil_r.
Qed.
End Orchestrator.

(** ** The query planner *)

Section Planner.
Context `{Env}.
Import MovieSearchAgent.
Implicit Types (w : world) (sem str : list (gset string)).

Lemma search_unfold query clause clauses self n :
  split_clauses query = clause :: clauses →
  search self query n = search_loop self (clause :: clauses) [] [] n.
Proof. intros Hs. unfold search. by rewrite Hs. Qed.

(** What follows an aborting clause plays no part in the loop. *)
Lemma search_loop_abort self before clause after sem str n w :
  _is_clause_structured clause = true →
  _filter_clause self clause = inr [] →
  search_loop self (before ++ clause :: after) sem str n w
  = search_loop self (before ++ [clause]) sem str n w
  ∧ fst (search_loop self (before ++ clause :: after) sem str n w) = inr [].
Proof.
  intros Hs Hf. revert sem str w.
  induction before as [|c before IH]; intros sem str w; simpl.
  - rewrite Hs. unfold mbind, M_bind, lift. simpl. by rewrite Hf.
  - destruct (_is_clause_structured c); unfold mbind, M_bind, lift; simpl.
    + destruct (_filter_clause_total self c) as [[|m ms] ->]; [done|apply IH].
    + destruct (vector_query c 5); [done|apply IH].
Qed.

(** C2.  If some clause of the query classifies as structured and
    resolves to the empty list, [search] returns the empty list, whatever
    the other clauses are.  It does so at once: the whole outcome, result
    and trace of effects, is the one of the loop run on the clauses up to
    this one, and every query sent to the vector store on the way is for a
    clause that comes before it.  No clause after it is evaluated. *)
Theorem search_aborts_on_empty_structured_clause self query n before clause after w :
  split_clauses query = before ++ clause :: after →
  _is_clause_structured clause = true →
  _filter_clause self clause = inr [] →
  fst (search self query n w) = inr []
  ∧ search self query n w = search_loop self (before ++ [clause]) [] [] n w
  ∧ ∃ evs, trace (snd (search self query n w)) = trace w ++ evs
           ∧ ∀ c k, VectorQuery c k ∈ evs → c ∈ before.
Proof.
  intros Hq Hs Hf.
  assert (search self query n = search_loop self (before ++ clause :: after) [] [] n) as ->.
  { destruct before; simpl in Hq; by erewrite search_unfold. }
  destruct (search_loop_abort self before clause after [] [] n w Hs Hf) as [Heq Hres].
  split; [done|]. split; [done|]. rewrite Heq.
  destruct (search_loop_emits self (before ++ [clause]) [] [] n w) as [_ (evs & Ht & Hev)].
  exists evs. split; [done|]. intros c k Hin.
  rewrite Forall_forall in Hev. destruct (Hev _ Hin) as [Hc Hsem].
  apply elem_of_app in Hc as [?|Hc]; [done|].
  apply list_elem_of_singleton in Hc as ->. congruence.
Qed.


Lemma elem_of_foldl_intersection (s : gset string) sets key :
  key ∈ foldl (∩) s sets ↔ key ∈ s ∧ ∀ s', s' ∈ sets → key ∈ s'.
Proof.
  revert s. induction sets as [|s1 sets IH]; intros s; simpl.
  - split; [intros ?; split; [done|]; by intros ? ?%elem_of_nil|by intros []].
  - rewrite IH, elem_of_intersection. split.
    + intros [[? ?] Hall]. split; [done|]. intros s' [->|?]%elem_of_cons; auto.
    + intros [? Hall]. repeat split; [done|apply Hall; by left|].
      intros s' ?. apply Hall. by right.
Qed.


(** The result of [search] does not depend on [n_results]. *)
Lemma search_merge_ignores_n sem str n n' w :
  fst (search_merge sem str n w) = fst (search_merge sem str n' w).
Proof.
  destruct sem as [|s sem]; [|by rewrite !search_merge_semantic].
  unfold search_merge, mbind, M_bind, lift. simpl.
  destruct (set_intersection str) as [e|final_set]; simpl; [done|].
  case_decide; simpl; [done|].
  destruct (loads_all (set_iter final_set)) as [e|results]; simpl; [done|].
  destruct (print_listing_ok n results (World
    ((trace w ++ [Print PUsingIndexes]) ++ [Print (PFoundStructured (length results))])
    (metadatas_global w))) as (evs & -> & _).
  destruct (print_listing_ok n' results (World
    ((trace w ++ [Print PUsingIndexes]) ++ [Print (PFoundStructured (length results))])
    (metadatas_global w))) as (evs' & -> & _).
  done.
Qed.

Lemma search_loop_ignores_n self clauses sem str n n' w :
  fst (search_loop self clauses sem str n w) = fst (search_loop self clauses sem str n' w).
Proof.
  revert sem str w. induction clauses as [|c clauses IH]; intros sem str w; simpl.
  - apply search_merge_ignores_n.
  - destruct (_is_clause_structured c); unfold mbind, M_bind, lift; simpl.
    + destruct (_filter_clause self c) as [e|[|m ms]]; [done..|apply IH].
    + destruct (vector_query c 5); [done|apply IH].
Qed.

Lemma search_ignores_n_results self query n n' w :
  fst (search self query n w) = fst (search self query n' w).
Proof.
  unfold search. destruct (split_clauses query); [done|].
  apply search_loop_ignores_n.
Qed.
End Planner.

(** ** The result cap *)

Section Cap.
Import MovieSearchAgent Demo.

(** C3.  The catalogue files six records under the genre [drama];
    whatever cap the caller passes, five for instance, [search] returns all
    six: [n_results] only bounds the listing that is printed. *)
Theorem search_returns_more_than_n_results :
  ∀ n_results, ∃ results,
    fst (search demo_indexes "genre is drama" n_results initial_world) = inr results
    ∧ length results = 6%nat.
Proof.
  intros n_results.
  rewrite (search_ignores_n_results demo_indexes "genre is drama" n_results 5 initial_world).
  eexists. split; [vm_compute; reflexivity|reflexivity].
Qed.
End Cap.

(** ** Year relations *)

Section YearFacts.
Import MovieSearchAgent.

Lemma year_scan_spec relation year_int items :
  year_scan relation year_int items
  = records_under (λ y, bool_decide (relation = "after") && bool_decide (y > year_int)
                        || bool_decide (relation = "before") && bool_decide (y < year_int)
                        || bool_decide (relation = "in") && bool_decide (y = year_int))
                  items.
Proof.
  unfold year_scan, records_under.
  rewrite <- (app_nil_l (concat _)). generalize (@nil value) as acc.
  induction items as [|[key movies] items IH]; intros acc; simpl.
  - by rewrite app_nil_r.
  - rewrite IH. destruct (Py.int key) as [y|]; simpl; [|done].
    match goal with |- context [if ?b then _ else _] => destruct b end; simpl; [|done].
    by rewrite <- app_assoc.
Qed.


(** Membership in [records_under]: the record is filed under a key that
    parses as an integer satisfying the test. *)
Lemma elem_of_records_under P items (r : value) :
  r ∈ records_under P items ↔
  ∃ key movies y, (key, movies) ∈ items ∧ r ∈ movies
                  ∧ Py.int key = Some y ∧ P y = true.
Proof.
  unfold records_under. rewrite list_elem_of_In, in_concat. split.
  - intros (movies & Hin & Hr). apply in_map_iff in Hin as ([key ms] & <- & Hf).
    apply List.filter_In in Hf as [Hitem HP]. simpl in *.
    destruct (Py.int key) as [y|] eqn:Hy; [|done].
    exists key, ms, y. by rewrite !list_elem_of_In.
  - intros (key & movies & y & Hitem & Hr & Hy & HP).
    rewrite list_elem_of_In in Hitem. rewrite list_elem_of_In in Hr.
    exists movies. split; [|done].
    apply in_map_iff. exists (key, movies). split; [done|].
    apply List.filter_In. split; [done|]. simpl. by rewrite Hy.
Qed.

(** A year clause is resolved by the scan of the year index. *)
Lemma year_clause_scan self clause relation year_text :
  year_clause clause relation year_text →
  ∃ yyyy, Py.int year_text = Some yyyy
    ∧ _filter_clause self clause = inr (year_scan relation yyyy (year self)).
Proof.
  intros (H1 & H2 & H3 & H4 & m & H5 & Hrel & Hyear).
  destruct (year_match_groups _ _ H5) as (rel' & text' & Hrel' & Hyear' & Hint).
  simplify_eq. exists (Py.digits_value 0 year_text). split; [done|].
  unfold _filter_clause. cbv zeta. by rewrite H1, H2, H3, H4, H5, Hrel, Hyear, Hint.
Qed.

End YearFacts.

(** ** Clause classification *)

Section Classifier.
Import MovieSearchAgent.

Lemma year_clause_berlin : year_clause "berlin 1989" "in" "1989".
Proof.
  repeat split; try (vm_compute; reflexivity).
  eexists. repeat split; vm_compute; reflexivity.
Qed.

(** C9.  Classification is a search, not a prefix test: if one of the
    five patterns matches at any offset of the trimmed, lower-cased
    clause, the clause is structured.  So the free-text clause
    [berlin 1989] is structured, through the [in 1989] that starts at its
    fifth character, and it is resolved against the year index as the
    relation [in] with the year 1989. *)
Theorem classification_is_unanchored :
  (∀ clause pattern before text,
     pattern ∈ patterns →
     Py.lower (Py.strip clause) = before +:+ text →
     is_Some (Re.match_at false pattern (last_char None before) text) →
     _is_clause_structured clause = true)
  ∧ _is_clause_structured "berlin 1989" = true
  ∧ ∀ self, _filter_clause self "berlin 1989"
            = inr (records_under (λ y, bool_decide (y = 1989)) (year self)).
Proof.
  split; [|split].
  - intros clause pattern before text Hp Hc Hm.
    unfold _is_clause_structured. cbv zeta. apply existsb_exists.
    exists pattern. split; [by apply list_elem_of_In|].
    apply bool_decide_eq_true. rewrite Hc. by apply search_from_app.
  - vm_compute. reflexivity.
  - intros self.
    destruct (year_clause_scan self _ _ _ year_clause_berlin) as (yyyy & Hy & ->).
    vm_compute in Hy. simplify_eq. rewrite year_scan_spec. reflexivity.
Qed.
End Classifier.

(** ** Offer prices *)

Section Offers.
Import MovieOfferAgent.

(** C8.  On a snippet with two dollar amounts and no [rent] or [buy]
    label, the fallback does not produce the amounts: [re.findall]
    returns the text of the pattern's only group, the cents, so the
    rental price becomes [.99] and the purchase price [.50]; and with
    whole-dollar amounts both prices stay empty. *)
Theorem fallback_prices_are_the_fraction_group :
  _extract_prices_and_format "$3.99 or $12.50" = (".99", ".50", "Unknown")
  ∧ Re.findall false price_pattern "$3.99 or $12.50" = [".99"; ".50"]
  ∧ _extract_prices_and_format "$4 or $15" = ("", "", "Unknown").
Proof. repeat split; vm_compute; reflexivity. Qed.
End Offers.

(** ** Trimming and code fences *)

Section StripFacts.
Implicit Types (s t w : string) (c : ascii).



Lemma lstrip_idemp s : Py.lstrip (Py.lstrip s) = Py.lstrip s.
Proof.
  induction s as [|c s IH]; [done|]. simpl.
  destruct (Py.is_space c) eqn:Hc; [done|]. simpl. by rewrite Hc.
Qed.

Lemma rstrip_space w : all_chars Py.is_space w = true → Py.rstrip w = "".
Proof.
  induction w as [|c w IH]; [done|]. simpl. intros [Hc Hw]%andb_true_iff.
  by rewrite (IH Hw), Hc.
Qed.



Lemma rstrip_lstrip s : Py.rstrip (Py.lstrip s) = Py.lstrip (Py.rstrip s).
Proof.
  induction s as [|c s IH]; [done|]. simpl.
  destruct (Py.is_space c) eqn:Hc.
  - rewrite IH. destruct (Py.rstrip s); [done|]. simpl. by rewrite Hc.
  - simpl. destruct (Py.rstrip s); simpl; by rewrite Hc.
Qed.






Import Reconciler.


End StripFacts.

(** ** Re-ranker payloads *)

Section Payload.
Context `{Env}.
Import Reconciler.

Lemma parse_items response parsed items w :
  parse_response response = inr parsed →
  recommendations_of parsed = inr (VList items) →
  fst (parse_json_recommendations response w)
  = inr (rows_of (enrich (metadatas_global w) items)).
Proof.
  intros Hp Hr. unfold parse_json_recommendations, try_except, mbind, M_bind, lift.
  rewrite Hp, Hr. simpl. by destruct (enrich (metadatas_global w) items).
Qed.

End Payload.

(** ** Reconciliation *)

Section Reconciliation.
Context `{Env}.
Import Reconciler.

Lemma first_match_find title records :
  first_match title (VDict <$> records)
  = inr (List.find (λ m, Py.contains (record_title m) (Py.lower title)) records).
Proof.
  induction records as [|m records IH]; [done|]. simpl.
  unfold record_title, text_field in *.
  by destruct (Py.contains _ _).
Qed.

Lemma enrich_candidates records candidates :
  enrich (VDict <$> records) (candidate_value <$> candidates)
  = inr ((λ c, enriched_row (Py.strip (fst c)) (Py.strip (snd c))
                            (matching_record (fst c) records)) <$> candidates).
Proof.
  induction candidates as [|[title reason] candidates IH]; [done|].
  rewrite !fmap_cons. unfold candidate_value at 1. cbn [enrich fst snd]. rewrite IH.
  change (text_field "title" [("title", VStr title); ("reason", VStr reason)])
    with (Py.strip title).
  change (text_field "reason" [("title", VStr title); ("reason", VStr reason)])
    with (Py.strip reason).
  rewrite first_match_find. reflexivity.
Qed.

Lemma metadata_spec found field :
  metadata found field
  = match found with
    | Some m => default (VStr "") (dict_get field m)
    | None => VStr ""
    end.
Proof. destruct found as [[|]|]; reflexivity. Qed.

Lemma enriched_row_fields title reason found :
  ∃ row, enriched_row title reason found = VDict row
    ∧ dict_get "title" row = Some (VStr title)
    ∧ dict_get "reason" row = Some (VStr reason)
    ∧ ∀ field, field ∈ metadata_fields →
        dict_get field row = Some (metadata found field).
Proof.
  eexists. split; [reflexivity|]. split; [done|]. split; [done|].
  intros field Hf. unfold metadata_fields in Hf.
  repeat (apply elem_of_cons in Hf as [->|Hf]; [reflexivity|]).
  by apply elem_of_nil in Hf.
Qed.

(** C5, as amended.  Reconciliation produces one row per candidate, in
    order.  The row carries the candidate's title and reason with the
    surrounding whitespace removed; each metadata field is copied (or
    blank when the record lacks it) from the first record, in list
    order, whose normalized title is contained in the candidate's
    normalized title, and is the empty string when there is no such
    record.  Nothing is raised. *)
Theorem reconciliation_rows records candidates w :
  metadatas_global w = VDict <$> records →
  ∃ rows,
    fst (parse_json_recommendations (response_of candidates) w) = inr (VDict <$> rows)
    ∧ length rows = length candidates
    ∧ ∀ i title reason row,
        candidates !! i = Some (title, reason) → rows !! i = Some row →
        dict_get "title" row = Some (VStr (Py.strip title))
        ∧ dict_get "reason" row = Some (VStr (Py.strip reason))
        ∧ ∀ field, field ∈ metadata_fields →
            dict_get field row
            = Some (match matching_record title records with
                    | Some m => default (VStr "") (dict_get field m)
                    | None => VStr ""
                    end).
Proof.
  intros Hg.
  set (row_of := λ c : string * string,
         ("title", VStr (Py.strip (fst c))) :: ("reason", VStr (Py.strip (snd c)))
         :: ((λ field, (field, metadata (matching_record (fst c) records) field))
             <$> metadata_fields)).
  exists (row_of <$> candidates). split; [|split].
  - rewrite (parse_items _ (response_of candidates) (candidate_value <$> candidates));
      [|done..].
    rewrite Hg, enrich_candidates. simpl. f_equal.
    rewrite <- list_fmap_compose. done.
  - by rewrite length_fmap.
  - intros i title reason row Hc Hr.
    rewrite list_lookup_fmap, Hc in Hr. simpl in Hr. simplify_eq.
    destruct (enriched_row_fields (Py.strip title) (Py.strip reason)
                (matching_record title records)) as (row & Hrow & Ht & Hre & Hf).
    unfold enriched_row in Hrow. simplify_eq.
    split; [done|]. split; [done|].
    intros field Hfield. rewrite <- metadata_spec. by apply Hf.
Qed.
End Reconciliation.

(** ** The membership key *)

Section MembershipKey.
Import MovieSearchAgent.

Lemma read_escape_char c rest :
  read_literal (Json.escape_char c +:+ rest)
  = prod_map (String c) id <$> read_literal rest.
Proof. destruct c as [[] [] [] [] [] [] [] []]; reflexivity. Qed.

Lemma read_escape k rest :
  read_literal (Json.escape k +:+ String Json.quote rest) = Some (k, rest).
Proof.
  induction k as [|c k IH]; [done|]. simpl.
  by rewrite str_app_assoc, read_escape_char, IH.
Qed.

(** A serialised key can be read back from the front of any text. *)
Lemma dumps_str_app_inj k1 k2 x1 x2 :
  Json.dumps_str k1 +:+ x1 = Json.dumps_str k2 +:+ x2 → k1 = k2.
Proof.
  unfold Json.dumps_str. rewrite !str_app_cons, !str_app_assoc, !str_app_cons.
  intros Heq. injection Heq as Heq.
  apply (f_equal read_literal) in Heq.
  rewrite !str_app_empty_l, !read_escape in Heq. by simplify_eq.
Qed.

Lemma dumps_dict d : Json.dumps (VDict d) = "{" +:+ dumps_items d +:+ "}".
Proof.
  reflexivity.
Qed.

Lemma dumps_items_app common e d :
  dumps_items (common ++ e :: d) = dumps_leading common +:+ dumps_items (e :: d).
Proof.
  induction common as [|[k x] common IH]; [done|].
  change ((k, x) :: common) with ([(k, x)] ++ common). rewrite <- app_assoc.
  simpl ([_] ++ _). 
  destruct (common ++ e :: d) as [|e' d'] eqn:Hd.
  { by destruct common. }
  change (dumps_items ((k, x) :: e' :: d'))
    with (Json.dumps_str k +:+ ": " +:+ Json.dumps x +:+ ", " +:+ dumps_items (e' :: d')).
  rewrite IH. simpl dumps_leading. by rewrite !str_app_assoc.
Qed.

Lemma dumps_items_head k x d :
  ∃ rest, dumps_items ((k, x) :: d) = Json.dumps_str k +:+ rest.
Proof. destruct d; simpl; eauto. Qed.

(** Two orderings of the same fields are equal or part ways at a key. *)
Lemma reordered_fields (d1 d2 : list (string * value)) :
  NoDup d1.*1 → d1 ≡ₚ d2 →
  d1 = d2 ∨
  ∃ common k1 x1 t1 k2 x2 t2,
    d1 = common ++ (k1, x1) :: t1 ∧ d2 = common ++ (k2, x2) :: t2 ∧ k1 ≠ k2.
Proof.
  revert d2. induction d1 as [|[k1 x1] d1 IH]; intros d2 Hnd Hperm.
  - apply Permutation_nil_l in Hperm. by left.
  - destruct d2 as [|[k2 x2] d2].
    { by apply Permutation_nil_r in Hperm. }
    destruct (decide (k1 = k2)) as [<-|Hk].
    + assert (x1 = x2) as <-.
      { assert (Hin : (k1, x2) ∈ (k1, x1) :: d1)
          by (rewrite Hperm; by left).
        apply elem_of_cons in Hin as [?|Hin]; [by simplify_eq|].
        apply NoDup_cons in Hnd as [Hnot _]. exfalso. apply Hnot.
        apply list_elem_of_fmap. by exists (k1, x2). }
      apply Permutation_cons_inv in Hperm.
      apply NoDup_cons in Hnd as [_ Hnd].
      destruct (IH d2 Hnd Hperm)
        as [->|(common & ka & xa & ta & kb & xb & tb & -> & -> & ?)]; [by left|].
      right. by exists ((k1, x1) :: common), ka, xa, ta, kb, xb, tb.
    + right. by exists [], k1, x1, d1, k2, x2, d2.
Qed.

Lemma dumps_reordered d1 d2 :
  NoDup d1.*1 → d1 ≡ₚ d2 → Json.dumps (VDict d1) = Json.dumps (VDict d2) → d1 = d2.
Proof.
  intros Hnd Hperm Heq.
  destruct (reordered_fields d1 d2 Hnd Hperm)
    as [|(common & k1 & x1 & t1 & k2 & x2 & t2 & -> & -> & Hk)]; [done|].
  exfalso. apply Hk.
  rewrite !dumps_dict, !dumps_items_app in Heq.
  destruct (dumps_items_head k1 x1 t1) as [r1 Hr1].
  destruct (dumps_items_head k2 x2 t2) as [r2 Hr2].
  rewrite Hr1, Hr2, !str_app_assoc in Heq.
  apply (inj (String.app "{")), (inj (String.app (dumps_leading common))) in Heq.
  by apply dumps_str_app_inj in Heq.
Qed.

(** C6, as amended.  The membership key is [json.dumps] of the record,
    which writes the fields in insertion order.  For two records with the
    same fields and values (distinct keys, one list a rearrangement of the
    other), the intersection of their key sets holds the one common key
    when the fields come in the same order, and is empty when the order
    differs: the two instances are then different elements. *)
Theorem membership_key_follows_field_order d1 d2 :
  NoDup d1.*1 → d1 ≡ₚ d2 →
  (d1 = d2 → key_set [VDict d1] ∩ key_set [VDict d2] = {[Json.dumps (VDict d1)]})
  ∧ (d1 ≠ d2 → key_set [VDict d1] ∩ key_set [VDict d2] = ∅).
Proof.
  intros Hnd Hperm. unfold key_set. split.
  - intros <-. rewrite (idemp_L (∩)). apply list_to_set_singleton_L.
  - intros Hne. apply elem_of_equiv_empty_L. intros key.
    rewrite elem_of_intersection, !elem_of_list_to_set, !list_fmap_singleton,
      !list_elem_of_singleton.
    intros [-> Heq]. by apply Hne, dumps_reordered.
Qed.
End MembershipKey.

(** * The statements at work on the catalogue *)

Section Examples.
Import MovieSearchAgent MovieOrchestrator Reconciler Demo.



Lemma search_aborts_on_empty_structured_clause_witness :
  fst (search demo_indexes "story about hope and starring nobody and first contact" 5
         initial_world) = inr []
  ∧ search demo_indexes "story about hope and starring nobody and first contact" 5
      initial_world
    = search_loop demo_indexes (["story about hope"] ++ ["starring nobody"]) [] [] 5
        initial_world
  ∧ ∃ evs, trace (snd (search demo_indexes
                         "story about hope and starring nobody and first contact" 5
                         initial_world)) = trace initial_world ++ evs
           ∧ ∀ c k, VectorQuery c k ∈ evs → c ∈ ["story about hope"].
Proof.
  apply (search_aborts_on_empty_structured_clause demo_indexes
           "story about hope and starring nobody and first contact" 5
           ["story about hope"] "starring nobody" ["first contact"] initial_world);
    vm_compute; reflexivity.
Defined.



(** Against C5 as stated: the title of the candidate is not carried over
    as it is; a title with a space on either side comes back without them. *)
Lemma untrimmed_title_is_not_preserved :
  ∃ row,
    fst (parse_json_recommendations (response_of [(" Arrival ", "First contact.")])
           (World [] [arrival]))
    = inr [VDict row]
    ∧ dict_get "title" row = Some (VStr "Arrival")
    ∧ dict_get "title" row ≠ Some (VStr " Arrival ").
Proof. eexists. split; [vm_compute; reflexivity|]. split; [reflexivity|discriminate]. Qed.

Lemma reconciliation_rows_witness :
  ∃ rows,
    fst (parse_json_recommendations (response_of [("Arrival (2016)", "First contact.")])
           (World [] (VDict <$> [sully_fields])))
    = inr (VDict <$> rows)
    ∧ length rows = length [("Arrival (2016)", "First contact.")]
    ∧ ∀ i title reason row,
        [("Arrival (2016)", "First contact.")] !! i = Some (title, reason) →
        rows !! i = Some row →
        dict_get "title" row = Some (VStr (Py.strip title))
        ∧ dict_get "reason" row = Some (VStr (Py.strip reason))
        ∧ ∀ field, field ∈ metadata_fields →
            dict_get field row
            = Some (match matching_record title [sully_fields] with
                    | Some m => default (VStr "") (dict_get field m)
                    | None => VStr ""
                    end).
Proof.
  apply (reconciliation_rows [sully_fields] [("Arrival (2016)", "First contact.")]
           (World [] (VDict <$> [sully_fields]))).
  reflexivity.
Defined.

(** Against C6 as stated: the two orderings of the record are the same
    key-value map, yet their serialisations differ and their key sets have
    nothing in common; the intersection sees two different elements. *)
Lemma reordered_record_is_another_element :
  NoDup sully_fields.*1
  ∧ sully_fields ≡ₚ sully_fields_reordered
  ∧ (∀ k, dict_get k sully_fields = dict_get k sully_fields_reordered)
  ∧ Json.dumps (VDict sully_fields) ≠ Json.dumps (VDict sully_fields_reordered)
  ∧ key_set [VDict sully_fields] ∩ key_set [VDict sully_fields_reordered] = ∅.
Proof.
  split; [|split; [|split; [|split]]].
  - repeat constructor; rewrite ?elem_of_cons, ?elem_of_nil; intuition discriminate.
  - apply perm_swap.
  - intros k. unfold dict_get, sully_fields, sully_fields_reordered. simpl.
    repeat case_bool_decide; simplify_eq; reflexivity.
  - vm_compute. discriminate.
  - vm_compute. reflexivity.
Qed.

Lemma sully_fields_nodup : NoDup sully_fields.*1.
Proof.
  repeat constructor; rewrite ?elem_of_cons, ?elem_of_nil; intuition discriminate.
Defined.

Lemma membership_key_follows_field_order_witness :
  (sully_fields = sully_fields_reordered →
   key_set [VDict sully_fields] ∩ key_set [VDict sully_fields_reordered]
   = {[Json.dumps (VDict sully_fields)]})
  ∧ (sully_fields ≠ sully_fields_reordered →
     key_set [VDict sully_fields] ∩ key_set [VDict sully_fields_reordered] = ∅).
Proof.
  apply (membership_key_follows_field_order sully_fields sully_fields_reordered).
  - exact sully_fields_nodup.
  - apply perm_swap.
Defined.


Lemma classification_is_unanchored_witness :
  _is_clause_structured " Berlin 1989" = true.
Proof.
  apply (proj1 classification_is_unanchored " Berlin 1989" year_pattern "berl" "in 1989").
  - apply list_elem_of_In. vm_compute. tauto.
  - vm_compute. reflexivity.
  - vm_compute. eauto.
Defined.

Lemma run_without_candidates_witness :
  fst (run demo_indexes "starring nobody" 5 initial_world) = inr (VList [])
  ∧ llm_requests (trace (snd (run demo_indexes "starring nobody" 5 initial_world)))
    = llm_requests (trace initial_world)
  ∧ metadatas_global (snd (run demo_indexes "starring nobody" 5 initial_world))
    = metadatas_global initial_world.
Proof.
  apply (run_without_candidates demo_indexes "starring nobody" 5 initial_world).
  vm_compute. reflexivity.
Defined.
End Examples.

(** * Further properties of the agent *)

(** ** The planner as a function of the clauses *)

Section PlanFacts.
Context `{Env}.
Import MovieSearchAgent Plan.
Implicit Types (w : world) (sem str : list (gset string)).

Lemma search_merge_structured str n w :
  fst (search_merge [] str n w) = merged str.
Proof.
  unfold search_merge, mbind, M_bind, lift, merged, set_intersection.
  destruct str as [|s str]; simpl; [done|].
  destruct (decide (foldl (∩) s str = ∅)) as [->|Hne]; simpl.
  - by rewrite set_iter_empty.
  - destruct (loads_all (set_iter (foldl (∩) s str))) as [e|results]; simpl; [done|].
    destruct (print_listing_ok n results (World
      ((trace w ++ [Print PUsingIndexes]) ++ [Print (PFoundStructured (length results))])
      (metadatas_global w))) as (evs & -> & _).
    done.
Qed.

Lemma search_merge_result sem str n w :
  fst (search_merge sem str n w)
  = match sem with _ :: _ => merged sem | [] => merged str end.
Proof.
  destruct sem as [|s sem]; [apply search_merge_structured|apply search_merge_semantic].
Qed.

(** The loop, from any state of its two accumulators. *)
Lemma search_loop_result self clauses sem str n w :
  fst (search_loop self clauses sem str n w)
  = if existsb (no_hits self) clauses then inr []
    else match sem ++ semantic_sets clauses with
         | _ :: _ => merged (sem ++ semantic_sets clauses)
         | [] => merged (str ++ structured_sets self clauses)
         end.
Proof.
  revert sem str w. induction clauses as [|c clauses IH]; intros sem str w.
  - simpl. rewrite !app_nil_r. apply search_merge_result.
  - simpl. unfold no_hits at 1, hits, semantic_sets, semantic_clauses, structured_sets.
    simpl. destruct (_is_clause_structured c) eqn:Hc; unfold mbind, M_bind, lift; simpl.
    + destruct (_filter_clause_total self c) as [records ->]. simpl.
      destruct records as [|m ms]; simpl; [done|].
      rewrite IH. unfold semantic_sets, semantic_clauses, structured_sets.
      by rewrite <- !app_assoc.
    + destruct (vector_query c 5) as [|m ms] eqn:Hv; simpl; [done|].
      rewrite IH. unfold semantic_sets, semantic_clauses, structured_sets.
      by rewrite <- !app_assoc.
Qed.

Lemma search_result self query n w :
  fst (search self query n w) = planned_result self (split_clauses query).
Proof.
  unfold search, planned_result.
  destruct (split_clauses query) as [|c clauses] eqn:Hq; [done|].
  by rewrite search_loop_result.
Qed.
End PlanFacts.

Section PlanProperties.
Context `{Env}.
Import MovieSearchAgent Plan.







Lemma existsb_no_hits self clauses c :
  c ∈ clauses → hits self c = [] → existsb (no_hits self) clauses = true.
Proof.
  intros Hin Hc. apply existsb_exists. exists c.
  split; [by apply list_elem_of_In|]. unfold no_hits. by rewrite Hc.
Qed.

(** X2.  A semantic clause without a single vector hit empties the whole
    query, wherever it stands among the clauses. *)
Theorem search_aborts_on_empty_semantic_clause self query n clause w :
  clause ∈ split_clauses query →
  _is_clause_structured clause = false →
  vector_query clause 5 = [] →
  fst (search self query n w) = inr [].
Proof.
  intros Hin Hsem Hv. rewrite search_result. unfold planned_result.
  destruct (split_clauses query) as [|c clauses]; [done|].
  rewrite (existsb_no_hits self _ clause Hin); [done|].
  unfold hits. by rewrite Hsem.
Qed.


End PlanProperties.

(** ** Bounds and effects of a search *)

Section SearchBounds.
Context `{Env}.
Import MovieSearchAgent Plan.

Lemma loads_all_length keys results :
  loads_all keys = inr results → length results = length keys.
Proof.
  revert results. induction keys as [|key keys IH]; intros results Hl; simpl in Hl.
  - by simplify_eq.
  - destruct (json_loads key); [|done].
    destruct (loads_all keys) as [e|rs]; [done|]. simplify_eq. simpl.
    by rewrite (IH rs).
Qed.

Lemma set_iter_length (X : gset string) : length (set_iter X) = size X.
Proof. by rewrite set_iter_perm. Qed.

Lemma size_key_set records : (size (key_set records) ≤ length records)%nat.
Proof.
  unfold key_set. induction records as [|m records IH].
  - change (size (∅ : gset string) ≤ 0)%nat. by rewrite size_empty.
  - rewrite fmap_cons, list_to_set_cons, size_union_alt, size_singleton. simpl length.
    assert (Hsub : (list_to_set (Json.dumps <$> records) : gset string) ∖ {[Json.dumps m]}
                   ⊆ list_to_set (Json.dumps <$> records))
      by (intros key Hkey; by apply elem_of_difference in Hkey as [? _]).
    apply subseteq_size in Hsub. lia.
Qed.

Lemma foldl_intersection_subseteq (s : gset string) sets : foldl (∩) s sets ⊆ s.
Proof. intros key Hkey. by apply elem_of_foldl_intersection in Hkey as [? _]. Qed.

(** X4.  If the vector store never returns more than the five neighbours
    it is asked for, a query with a semantic clause returns at most five
    records, however many its structured clauses match. *)
Theorem search_semantic_cap self query n w results :
  semantic_clauses (split_clauses query) ≠ [] →
  (∀ c, length (vector_query c 5) ≤ 5)%nat →
  fst (search self query n w) = inr results →
  (length results ≤ 5)%nat.
Proof.
  intros Hsem Hcap. rewrite search_result. unfold planned_result.
  destruct (split_clauses query) as [|c clauses]; [done|].
  destruct (existsb _ _); [intros; simplify_eq; simpl; lia|].
  destruct (semantic_sets (c :: clauses)) as [|s sets] eqn:Hsets.
  { unfold semantic_sets in Hsets. by apply fmap_nil_inv in Hsets. }
  unfold merged. simpl. intros Hl%loads_all_length.
  rewrite Hl, set_iter_length.
  assert (Hs : s ∈ semantic_sets (c :: clauses)) by (rewrite Hsets; by left).
  unfold semantic_sets in Hs. apply list_elem_of_fmap in Hs as (c' & -> & _).
  pose proof (subseteq_size _ _ (foldl_intersection_subseteq (key_set (vector_query c' 5)) sets)).
  pose proof (size_key_set (vector_query c' 5)). specialize (Hcap c'). lia.
Qed.

Lemma vector_queries_prints evs : Forall is_print evs → vector_queries evs = [].
Proof.
  unfold vector_queries. induction 1 as [|ev evs Hev _ IH]; [done|].
  simpl. destruct ev; try done.
Qed.

Lemma search_loop_queries self clauses sem str n w :
  ∃ evs j,
    trace (snd (search_loop self clauses sem str n w)) = trace w ++ evs
    ∧ vector_queries evs = (λ c, (c, 5%nat)) <$> semantic_clauses (take j clauses)
    ∧ (existsb (no_hits self) clauses = false → j = length clauses).
Proof.
  revert sem str w. induction clauses as [|c clauses IH]; intros sem str w.
  - simpl. destruct (search_merge_emits sem str n w) as [_ (evs & Ht & Hp)].
    exists evs, 0%nat. by rewrite (vector_queries_prints evs Hp).
  - simpl. unfold no_hits at 1, hits.
    destruct (_is_clause_structured c) eqn:Hc; unfold mbind, M_bind, lift; simpl.
    + destruct (_filter_clause_total self c) as [records ->]. simpl.
      destruct records as [|m ms]; simpl.
      { exists [Print (PStructuredClause c); Print (PStructuredEmpty c)], 0%nat.
        rewrite <- app_assoc. done. }
      destruct (IH sem (str ++ [key_set (m :: ms)])
                  (World (trace w ++ [Print (PStructuredClause c)]) (metadatas_global w)))
        as (evs & j & Ht & Hq & Hj).
      exists (Print (PStructuredClause c) :: evs), (S j). simpl in *.
      rewrite Ht, <- app_assoc. split; [done|].
      unfold semantic_clauses in *. simpl. rewrite Hc. simpl. split; [done|].
      intros ?. f_equal. auto.
    + destruct (vector_query c 5) as [|m ms] eqn:Hv; simpl.
      { exists [Print (PSemanticClause c); VectorQuery c 5; Print (PSemanticEmpty c)], 1%nat.
        rewrite <- !app_assoc. split; [done|].
        unfold semantic_clauses. simpl. rewrite ?take_0. simpl. by rewrite Hc. }
      destruct (IH (sem ++ [key_set (m :: ms)]) str
                  (World ((trace w ++ [Print (PSemanticClause c)]) ++ [VectorQuery c 5])
                         (metadatas_global w)))
        as (evs & j & Ht & Hq & Hj).
      exists (Print (PSemanticClause c) :: VectorQuery c 5 :: evs), (S j). simpl in *.
      rewrite Ht, <- !app_assoc. split; [done|].
      unfold semantic_clauses in *. simpl. rewrite Hc. simpl. rewrite Hq.
      split; [done|]. intros ?. f_equal. auto.
Qed.

(** X5.  The vector store is asked once for each semantic clause the loop
    reaches, in query order, and always for five neighbours, whatever
    [n_results] is; when every clause finds something the loop reaches
    them all. *)
Theorem search_vector_queries self query n w :
  ∃ evs j,
    trace (snd (search self query n w)) = trace w ++ evs
    ∧ vector_queries evs
      = (λ c, (c, 5%nat)) <$> semantic_clauses (take j (split_clauses query))
    ∧ (existsb (no_hits self) (split_clauses query) = false →
       j = length (split_clauses query)).
Proof.
  unfold search. destruct (split_clauses query) as [|c clauses] eqn:Hq.
  - exists [Print PNoClauses], 0%nat. done.
  - apply search_loop_queries.
Qed.
End SearchBounds.

(** ** The orchestrator with candidates *)

Section Handover.
Context `{Env}.
Import MovieSearchAgent MovieOrchestrator MovieRecommenderAgent.

Lemma recommend_world user_query metadatas w :
  snd (recommend user_query metadatas w)
  = World (trace w ++ [LLMRequest user_query metadatas]) metadatas.
Proof.
  unfold recommend, mbind, M_bind, write_global, emit, raise. simpl.
  destruct (llm_complete user_query metadatas) as [content|]; [|done].
  by destruct (json_loads (Py.strip content)).
Qed.

Lemma run_with_candidates self query n w candidates w1 :
  search self query n (snd (print (PRunSearch query) w)) = (inr candidates, w1) →
  candidates ≠ [] →
  run self query n w
  = recommend query (take 5 candidates)
      (World (trace w1 ++ [Print PRunRecommender]) (metadatas_global w1)).
Proof.
  intros Hs Hne. unfold run, mbind, M_bind.
  unfold print at 1, emit at 1. unfold print, emit in Hs. simpl in *.
  rewrite Hs. destruct candidates as [|m ms]; [done|]. reflexivity.
Qed.

End Handover.

(** ** From the orchestrator to the reconciler *)

Section Pipeline.
Context `{Env}.
Import MovieSearchAgent MovieOrchestrator MovieRecommenderAgent Reconciler.

Lemma run_answer self query n w candidates content parsed :
  fst (search self query n (snd (print (PRunSearch query) w))) = inr candidates →
  candidates ≠ [] →
  llm_complete query (take 5 candidates) = Some content →
  json_loads (Py.strip content) = Some parsed →
  fst (run self query n w) = inr parsed
  ∧ metadatas_global (snd (run self query n w)) = take 5 candidates.
Proof.
  intros Hs Hne Hllm Hjson.
  destruct (search self query n _) as [r w1] eqn:Hrun. simpl in *. subst r.
  rewrite (run_with_candidates self query n w candidates w1 Hrun Hne).
  rewrite recommend_world. split; [|done].
  unfold recommend, mbind, M_bind, write_global, emit. simpl.
  by rewrite Hllm, Hjson.
Qed.

(** X7.  End to end: when the recommendation service answers with an
    object whose [recommendations] are [items], the page gets these items
    reconciled against the candidates of this very query, the first five
    that the search returned. *)
Theorem recommendations_reconcile_with_candidates self query w candidates content d items :
  fst (search self query 5 (snd (print (PRunSearch query) w))) = inr candidates →
  candidates ≠ [] →
  llm_complete query (take 5 candidates) = Some content →
  json_loads (Py.strip content) = Some (VDict d) →
  dict_get "recommendations" d = Some (VList items) →
  fst (Main.recommendations_for self query w)
  = inr (rows_of (enrich (take 5 candidates) items)).
Proof.
  intros Hs Hne Hllm Hjson Hd.
  destruct (run_answer self query 5 w candidates content (VDict d) Hs Hne Hllm Hjson)
    as [Hr Hg].
  unfold Main.recommendations_for, mbind, M_bind.
  destruct (run self query 5 w) as [r w2]. simpl in *. subst r.
  assert (Builtins.truthy (VDict d) = true) as -> by (by destruct d).
  rewrite (parse_items (VDict d) (VDict d) items w2); [by rewrite Hg|done|].
  simpl. by rewrite Hd.
Qed.

(** X8.  The service's answer reaches the reconciler already decoded, and
    the reconciler takes a decoded value only if it is an object: when the
    service answers with a bare array, the page gets no recommendation at
    all, whatever the array holds. *)
Theorem recommendations_drop_bare_array self query w candidates content items :
  fst (search self query 5 (snd (print (PRunSearch query) w))) = inr candidates →
  candidates ≠ [] →
  llm_complete query (take 5 candidates) = Some content →
  json_loads (Py.strip content) = Some (VList items) →
  fst (Main.recommendations_for self query w) = inr [].
Proof.
  intros Hs Hne Hllm Hjson.
  destruct (run_answer self query 5 w candidates content (VList items) Hs Hne Hllm Hjson)
    as [Hr Hg].
  unfold Main.recommendations_for, mbind, M_bind.
  destruct (run self query 5 w) as [r w2]. simpl in *. subst r.
  by destruct items.
Qed.

(** X9.  [parse_json_recommendations] never raises, whatever it is given:
    it returns rows, adds nothing but messages to the trace and leaves
    [metadatas_global] alone; and a text that does not decode, or a
    response that is neither text nor an object, gives no row. *)
Theorem parse_never_raises response w :
  (∃ rows, fst (parse_json_recommendations response w) = inr rows)
  ∧ metadatas_global (snd (parse_json_recommendations response w)) = metadatas_global w
  ∧ (∃ evs, trace (snd (parse_json_recommendations response w)) = trace w ++ evs
            ∧ Forall is_print evs)
  ∧ (∀ e, parse_response response = inl e →
          fst (parse_json_recommendations response w) = inr []).
Proof.
  unfold parse_json_recommendations, try_except, mbind, M_bind, lift, read_global,
    print, emit, mret, M_ret.
  destruct (parse_response response) as [e|parsed]; simpl.
  { repeat split; eauto; try done.
    exists [Print (PParseFailed e)]. split; [done|]. by repeat constructor. }
  destruct (recommendations_of parsed) as [e|recommendations]; simpl.
  { repeat split; eauto; try done.
    exists [Print (PParseFailed e)]. split; [done|]. by repeat constructor. }
  destruct (iterate recommendations) as [e|items]; simpl.
  { repeat split; eauto; try done.
    exists [Print (PGlobal (metadatas_global w)); Print (PParseFailed e)].
    rewrite <- app_assoc. split; [done|]. by repeat constructor. }
  destruct (enrich (metadatas_global w) items) as [e|rows]; simpl.
  { repeat split; eauto; try done.
    exists [Print (PGlobal (metadatas_global w)); Print (PParseFailed e)].
    rewrite <- app_assoc. split; [done|]. by repeat constructor. }
  repeat split; eauto; try done.
  exists [Print (PGlobal (metadatas_global w)); Print (PEnriched rows)].
  rewrite <- app_assoc. split; [done|]. by repeat constructor.
Qed.
End Pipeline.

(** ** More about text *)

Section MoreText.
Implicit Types (s t p q : string) (c : ascii).

Lemma lower_char_idemp c : Py.lower_char (Py.lower_char c) = Py.lower_char c.
Proof. destruct c as [[] [] [] [] [] [] [] []]; reflexivity. Qed.

Lemma is_space_lower_char c : Py.is_space (Py.lower_char c) = Py.is_space c.
Proof. destruct c as [[] [] [] [] [] [] [] []]; reflexivity. Qed.

Lemma lower_idemp s : Py.lower (Py.lower s) = Py.lower s.
Proof. induction s as [|c s IH]; [done|]. simpl. by rewrite lower_char_idemp, IH. Qed.

Lemma lower_app s t : Py.lower (s +:+ t) = Py.lower s +:+ Py.lower t.
Proof. induction s as [|c s IH]; [done|]. rewrite ?str_app_cons. simpl. by rewrite IH. Qed.

Lemma lstrip_lower s : Py.lstrip (Py.lower s) = Py.lower (Py.lstrip s).
Proof.
  induction s as [|c s IH]; [done|]. simpl. rewrite is_space_lower_char.
  by destruct (Py.is_space c).
Qed.

Lemma rstrip_lower s : Py.rstrip (Py.lower s) = Py.lower (Py.rstrip s).
Proof.
  induction s as [|c s IH]; [done|]. simpl. rewrite IH, is_space_lower_char.
  destruct (Py.rstrip s); simpl; [by destruct (Py.is_space c)|done].
Qed.

Lemma strip_lower s : Py.strip (Py.lower s) = Py.lower (Py.strip s).
Proof. unfold Py.strip. by rewrite rstrip_lower, lstrip_lower. Qed.

Lemma rstrip_idemp s : Py.rstrip (Py.rstrip s) = Py.rstrip s.
Proof.
  induction s as [|c s IH]; [done|]. simpl.
  destruct (Py.rstrip s) eqn:Hs.
  - destruct (Py.is_space c) eqn:Hc; [done|]. simpl. by rewrite Hc.
  - simpl in *. by rewrite IH.
Qed.

Lemma strip_idemp s : Py.strip (Py.strip s) = Py.strip s.
Proof. unfold Py.strip. by rewrite rstrip_lstrip, lstrip_idemp, rstrip_idemp. Qed.

Lemma strip_space s : all_chars Py.is_space s = true → Py.strip s = "".
Proof. intros Hs. unfold Py.strip. by rewrite rstrip_space. Qed.

Lemma startswith_refl s : Py.startswith s s = true.
Proof. induction s as [|c s IH]; [done|]. simpl. by rewrite decide_True. Qed.

Lemma contains_empty s : Py.contains "" s = true.
Proof. by destruct s. Qed.

Lemma contains_refl s : Py.contains s s = true.
Proof. destruct s; simpl; [done|]. by rewrite decide_True, startswith_refl. Qed.

Lemma contains_cons p c s : Py.contains p s = true → Py.contains p (String c s) = true.
Proof. intros Hp. simpl. rewrite Hp. apply orb_true_r. Qed.

Lemma contains_app_r p t s : Py.contains p s = true → Py.contains p (t +:+ s) = true.
Proof.
  intros Hp. induction t as [|c t IH]; [done|].
  rewrite str_app_cons. by apply contains_cons.
Qed.

Lemma startswith_app_l p s t : Py.startswith p s = true → Py.startswith p (s +:+ t) = true.
Proof.
  revert s. induction p as [|a p IH]; intros s Hp; [done|].
  destruct s as [|b s]; [done|]. rewrite str_app_cons. simpl in *.
  destruct (decide (a = b)); [|done]. by apply IH.
Qed.

Lemma contains_app_l p s t : Py.contains p s = true → Py.contains p (s +:+ t) = true.
Proof.
  induction s as [|c s IH]; intros Hp.
  - destruct p; [apply contains_empty|done].
  - rewrite str_app_cons. simpl in *. apply orb_true_iff in Hp as [Hp|Hp].
    + apply orb_true_iff. left.
      by apply (startswith_app_l p (String c s) t).
    + rewrite (IH Hp). apply orb_true_r.
Qed.

Lemma startswith_prefix p q s : Py.startswith (p +:+ q) s = true → Py.startswith p s = true.
Proof.
  revert s. induction p as [|a p IH]; intros s Hp; [done|].
  destruct s as [|b s]; [done|]. rewrite str_app_cons in Hp. simpl in *.
  destruct (decide (a = b)); [|done]. by apply IH.
Qed.

Lemma contains_prefix p q s : Py.contains (p +:+ q) s = true → Py.contains p s = true.
Proof.
  induction s as [|c s IH]; intros Hp; simpl in *.
  - apply orb_true_iff in Hp as [Hp|Hp]; [|done].
    apply startswith_prefix in Hp. by rewrite Hp.
  - apply orb_true_iff in Hp as [Hp|Hp].
    + apply startswith_prefix in Hp. by rewrite Hp.
    + rewrite (IH Hp). apply orb_true_r.
Qed.
End MoreText.

(** ** Loose title matching *)

Section TitleFacts.
Import Titles.

Lemma normalize_title_text s : normalize_title (VStr s) = Py.lower (Py.strip s).
Proof.
  unfold normalize_title, Builtins.or_else. simpl.
  case_bool_decide; by subst.
Qed.

(** X10.  Normalising a title twice changes nothing more: the normal
    form of any value is its own normal form. *)
Theorem normalize_title_idempotent t :
  normalize_title (VStr (normalize_title t)) = normalize_title t.
Proof.
  rewrite normalize_title_text. unfold normalize_title.
  by rewrite strip_lower, strip_idemp, lower_idemp.
Qed.

(** X11.  Loose matching does not depend on the order of its two
    arguments, and every value loosely matches itself. *)
Theorem loose_match_symmetric_reflexive a b :
  loose_match a b = loose_match b a ∧ loose_match a a = true.
Proof.
  unfold loose_match. cbv zeta. split.
  - destruct (Py.contains (normalize_title a) (normalize_title b)),
             (Py.contains (normalize_title b) (normalize_title a)),
             (existsb _ (Builtins.tokens (normalize_title a))),
             (existsb _ (Builtins.tokens (normalize_title b))); reflexivity.
  - by rewrite contains_refl.
Qed.

(** X12.  A title that is missing, falsy or blank loosely matches every
    title, on either side: its normal form is the empty text, which every
    text contains. *)
Theorem blank_title_loosely_matches_all a b :
  (Builtins.truthy a = false ∨ ∃ s, a = VStr s ∧ all_chars Py.is_space s = true) →
  normalize_title a = "" ∧ loose_match a b = true ∧ loose_match b a = true.
Proof.
  intros Ha.
  assert (Hn : normalize_title a = "").
  { destruct Ha as [Ha|(s & -> & Hs)].
    - unfold normalize_title, Builtins.or_else. by rewrite Ha.
    - by rewrite normalize_title_text, strip_space. }
  split; [done|]. unfold loose_match. cbv zeta. rewrite Hn.
  split; by rewrite contains_empty, ?orb_true_r.
Qed.
End TitleFacts.

(** ** Platforms and offers *)

Section OfferFacts.
Import MovieOfferAgent OfferSearch.

Lemma platform_not_blank p : p ∈ platforms → p ≠ "".
Proof.
  unfold platforms. intros Hp ->.
  repeat (apply elem_of_cons in Hp as [Hp|Hp]; [discriminate|]).
  by apply elem_of_nil in Hp.
Qed.

(** The test for [amazon.com] never decides: where it holds, the name
    [Amazon] has been found already. *)
Lemma amazon_domain_is_covered title snippet :
  List.find (λ p, Py.contains (Py.lower p)
                    (Py.lower (default "" title +:+ " " +:+ default "" snippet)))
            platforms = None →
  Py.contains "amazon.com" (Py.lower (default "" snippet))
  || Py.contains "amazon.com" (Py.lower (default "" title)) = false.
Proof.
  intros Hnone. apply not_true_is_false. intros Hdom.
  assert (Hfound : Py.contains (Py.lower "Amazon")
            (Py.lower (default "" title +:+ " " +:+ default "" snippet)) = true).
  { rewrite !lower_app. change (Py.lower "Amazon") with "amazon".
    apply orb_true_iff in Hdom as [Hs|Ht].
    - rewrite <- str_app_assoc. apply contains_app_r.
      by apply (contains_prefix "amazon" ".com").
    - apply contains_app_l. by apply (contains_prefix "amazon" ".com"). }
  assert (Hin : In "Amazon" platforms) by (unfold platforms; simpl; tauto).
  pose proof (List.find_none _ _ Hnone "Amazon" Hin) as Hnot. cbv beta in Hnot.
  congruence.
Qed.

Lemma detect_platform_found title snippet :
  _detect_platform title snippet
  = default "" (List.find (λ p, Py.contains (Py.lower p)
                             (Py.lower (default "" title +:+ " " +:+ default "" snippet)))
                          platforms).
Proof.
  unfold _detect_platform. cbv zeta.
  destruct (List.find _ platforms) eqn:Hfind; [done|].
  by rewrite (amazon_domain_is_covered title snippet Hfind).
Qed.

Lemma detect_platform_range title snippet :
  _detect_platform title snippet = "" ∨ _detect_platform title snippet ∈ platforms.
Proof.
  rewrite detect_platform_found. destruct (List.find _ platforms) eqn:Hfind; [|by left].
  right. apply List.find_some in Hfind as [Hin _]. by apply list_elem_of_In.
Qed.

(** X13.  Platform detection answers with one of the seven names or with
    the empty text, and with the empty text exactly when none of the
    names occurs in the lower-cased title and snippet: the later test for
    the domain [amazon.com] never changes the answer. *)
Theorem detect_platform_names title snippet :
  (_detect_platform title snippet = "" ∨ _detect_platform title snippet ∈ platforms)
  ∧ (_detect_platform title snippet = "" ↔
     ∀ p, p ∈ platforms →
          Py.contains (Py.lower p)
            (Py.lower (default "" title +:+ " " +:+ default "" snippet)) = false).
Proof.
  split; [apply detect_platform_range|].
  rewrite detect_platform_found. destruct (List.find _ platforms) eqn:Hfind; simpl.
  - apply List.find_some in Hfind as [Hin Hp]. split.
    + intros ->. apply list_elem_of_In in Hin. by apply platform_not_blank in Hin.
    + intros Hall. rewrite Hall in Hp; [done|]. by apply list_elem_of_In.
  - split; [|done]. intros _ p Hp.
    apply (List.find_none _ _ Hfind p). by apply list_elem_of_In.
Qed.

(** X14.  Platform detection ignores letter case: lower-casing the title
    and the snippet beforehand gives the same platform. *)
Theorem detect_platform_ignores_case title snippet :
  _detect_platform (Py.lower <$> title) (Py.lower <$> snippet)
  = _detect_platform title snippet.
Proof.
  rewrite !detect_platform_found.
  assert (Py.lower (default "" (Py.lower <$> title) +:+ " "
                    +:+ default "" (Py.lower <$> snippet))
          = Py.lower (default "" title +:+ " " +:+ default "" snippet)) as ->; [|done].
  rewrite !lower_app. destruct title, snippet; simpl; by rewrite ?lower_idemp.
Qed.

Lemma offer_of_some idx r offer :
  offer_of idx r = inr (Some offer) →
  ∃ fields row platform,
    r = VDict fields ∧ offer = VDict row
    ∧ dict_get "#" row = Some (VInt (Z.of_nat idx))
    ∧ dict_get "Platform" row = Some (VStr platform) ∧ platform ∈ platforms
    ∧ dict_get "Title" row = Some (default (VStr "") (dict_get "title" fields))
    ∧ dict_get "URL" row = Some (default (VStr "") (dict_get "link" fields)).
Proof.
  unfold offer_of. destruct r as [| | | | |?|fields]; try done.
  destruct (text_or_blank _) as [e|snippet]; [done|].
  destruct (_extract_prices_and_format snippet) as [[rent buy] format].
  destruct (text_or_blank _) as [e|title]; [done|].
  case_bool_decide as Hp; [done|]. intros Heq. simplify_eq.
  eexists fields, _, _. repeat split; try reflexivity.
  by destruct (detect_platform_range (Some title) (Some snippet)).
Qed.

Lemma offers_of_enumerate k items offers :
  offers_of (enumerate k items) = inr offers →
  (length offers ≤ length items)%nat
  ∧ ∀ offer, offer ∈ offers →
      ∃ i fields row platform,
        items !! i = Some (VDict fields) ∧ offer = VDict row
        ∧ dict_get "#" row = Some (VInt (Z.of_nat (k + i)))
        ∧ dict_get "Platform" row = Some (VStr platform) ∧ platform ∈ platforms
        ∧ dict_get "Title" row = Some (default (VStr "") (dict_get "title" fields))
        ∧ dict_get "URL" row = Some (default (VStr "") (dict_get "link" fields)).
Proof.
  revert k offers. induction items as [|r items IH]; intros k offers Ho; simpl in Ho.
  - simplify_eq. split; [done|]. by intros ? ?%elem_of_nil.
  - destruct (offer_of k r) as [e|offer] eqn:Hr; [done|].
    destruct (offers_of (enumerate (S k) items)) as [e|rest] eqn:Hrest; [done|].
    simplify_eq. destruct (IH _ _ Hrest) as [Hlen Hall]. split.
    + rewrite length_app. simpl. destruct offer; simpl; lia.
    + intros o [Ho|Ho]%elem_of_app.
      * destruct offer as [o'|]; simpl in Ho; [|by apply elem_of_nil in Ho].
        apply list_elem_of_singleton in Ho as ->.
        apply offer_of_some in Hr as (fields & row & p & -> & -> & ? & ? & ? & ? & ?).
        exists 0%nat, fields, row, p. rewrite Nat.add_0_r. tauto.
      * destruct (Hall o Ho) as (i & fields & row & p & ? & ? & Hn & ?).
        exists (S i), fields, row, p. rewrite Nat.add_succ_r. simpl in *. tauto.
Qed.

(** X15.  When the offer search answers with status 200 and a list of
    organic results, [search_offers] returns at most one offer per result;
    every offer names one of the seven platforms, keeps the title and the
    link of the result it comes from, and is numbered with the rank of
    that result in the answer (counted from one), so the numbers of the
    results dropped for want of a platform are simply missing. *)
Theorem offers_keep_rank_and_platform http_get movie_title data items offers :
  status_code (http_get (offer_query (cleaned_title movie_title))) = 200%nat →
  json (http_get (offer_query (cleaned_title movie_title))) = Some (VDict data) →
  dict_get "organic_results" data = Some (VList items) →
  search_offers http_get movie_title = inr offers →
  (length offers ≤ length items)%nat
  ∧ ∀ offer, offer ∈ offers →
      ∃ i fields row platform,
        items !! i = Some (VDict fields) ∧ offer = VDict row
        ∧ dict_get "#" row = Some (VInt (Z.of_nat (1 + i)))
        ∧ dict_get "Platform" row = Some (VStr platform) ∧ platform ∈ platforms
        ∧ dict_get "Title" row = Some (default (VStr "") (dict_get "title" fields))
        ∧ dict_get "URL" row = Some (default (VStr "") (dict_get "link" fields)).
Proof.
  intros Hstatus Hjson Hres. unfold search_offers. cbv zeta.
  rewrite Hstatus, Hjson, Hres. simpl.
  destruct items as [|r items]; simpl.
  - intros ?. simplify_eq. split; [done|]. by intros ? ?%elem_of_nil.
  - apply (offers_of_enumerate 1 (r :: items)).
Qed.

End OfferFacts.

(** ** The matcher on a known text *)

Section MatcherForward.
Import Re.
Context {R : Type}.
Implicit Types (k : state → option R) (r : R).

Lemma all_chars_app f s t :
  all_chars f (s +:+ t) = all_chars f s && all_chars f t.
Proof.
  induction s as [|c s IH]; [done|]. rewrite ?str_app_cons. simpl.
  by rewrite IH, andb_assoc.
Qed.

(** Without [IGNORECASE] a literal reads itself. *)
Lemma match_lit_app l p s cs k :
  match_lit false l (State p (l +:+ s) cs) k = k (State (last_char p l) s cs).
Proof.
  revert p. induction l as [|a l IH]; intros p; [done|].
  rewrite ?str_app_cons. simpl. rewrite bool_decide_eq_true_2 by done. apply IH.
Qed.

(** An unbounded repetition takes the whole run when what follows the run
    is not of the class and the rest of the pattern accepts there. *)
Lemma match_rep_run ic cl lo p t s cs k r :
  all_chars (in_class ic cl) t = true →
  (∀ c s', s = String c s' → in_class ic cl c = false) →
  (lo ≤ String.length t)%nat →
  k (State (last_char p t) s cs) = Some r →
  match_rep ic cl lo None p (t +:+ s) cs k = Some r.
Proof.
  revert lo p. induction t as [|c t IH]; intros lo p Hall Hnext Hlo Hk.
  - simpl in *. assert (lo = 0%nat) as -> by lia. rewrite str_app_empty_l.
    destruct s as [|c s]; simpl; [done|].
    by rewrite (Hnext c s eq_refl).
  - rewrite ?str_app_cons. simpl in *. apply andb_true_iff in Hall as [Hc Hall].
    rewrite Hc. simpl. rewrite (IH (Nat.pred lo) (Some c)); auto. lia.
Qed.

(** A repetition bounded by the length of the run takes the run. *)
Lemma match_rep_exact ic cl lo p t s cs k r :
  all_chars (in_class ic cl) t = true →
  (lo ≤ String.length t)%nat →
  k (State (last_char p t) s cs) = Some r →
  match_rep ic cl lo (Some (String.length t)) p (t +:+ s) cs k = Some r.
Proof.
  revert lo p. induction t as [|c t IH]; intros lo p Hall Hlo Hk.
  - simpl in *. assert (lo = 0%nat) as -> by lia. rewrite str_app_empty_l.
    destruct s as [|c s]; simpl; [done|].
    by rewrite andb_false_r.
  - rewrite ?str_app_cons. simpl in *. apply andb_true_iff in Hall as [Hc Hall].
    rewrite Hc. simpl. rewrite (IH (Nat.pred lo) (Some c)); auto. lia.
Qed.

(** A match at the very start is the one [re.search] returns. *)
Lemma search_at_start ic (pat : regex) p s m :
  match_at ic pat p s = Some m → search_from ic pat p s = Some m.
Proof. intros Hm. destruct s; simpl; by rewrite Hm. Qed.
End MatcherForward.

(** ** Actor clauses *)

Section ActorClauses.
Import Re MovieSearchAgent.

Lemma lstrip_head s c s' : Py.lstrip s = String c s' → Py.is_space c = false.
Proof.
  induction s as [|a s IH]; [done|]. simpl.
  destruct (Py.is_space a) eqn:Ha; [done|]. intros ?. by simplify_eq.
Qed.

Lemma take_all s : Py.take (String.length s) s = s.
Proof. rewrite <- (str_app_empty_r s) at 2. apply str_take_app. Qed.

(** The tail of an actor clause: whitespace, then the name. *)
Lemma name_match p ws name cs :
  ws ≠ "" → all_chars Py.is_space ws = true →
  name ≠ "" → Py.strip name = name →
  all_chars (in_class false CDot) name = true →
  ∃ m, run false (plus CSpace) (State p (ws +:+ name) cs)
         (λ st, run false (Grp 2 (plus CDot)) st Some) = Some m
       ∧ group 2 m = Some name.
Proof.
  intros Hws Hspace Hname Hstrip Hline.
  eexists. split.
  - simpl. apply match_rep_run; [done| | |].
    + intros c s' ->. apply (lstrip_head (Py.rstrip (String c s')) c s'), Hstrip.
    + destruct ws; [done|]. simpl. lia.
    + simpl. rewrite <- (str_app_empty_r name) at 1.
      apply match_rep_run; [done|done| |reflexivity].
      destruct name; [done|]. simpl. lia.
  - unfold group. simpl. by rewrite Nat.sub_0_r, take_all.
Qed.

Lemma actor_match trigger ws name :
  trigger ∈ ["acted by"; "starring"; "featuring"] →
  ws ≠ "" → all_chars Py.is_space ws = true →
  name ≠ "" → Py.strip name = name →
  all_chars (in_class false CDot) name = true →
  ∃ m, Re.search false actor_pattern (trigger +:+ ws +:+ name) = Some m
       ∧ group 2 m = Some name.
Proof.
  intros Ht Hws Hspace Hname Hstrip Hline.
  assert (Hrun : ∀ cs, ∃ m,
    run false (plus CSpace) (State (last_char None trigger) (ws +:+ name) cs)
      (λ st, run false (Grp 2 (plus CDot)) st Some) = Some m ∧ group 2 m = Some name)
    by (intros; by apply name_match).
  unfold Re.search.
  repeat (apply elem_of_cons in Ht as [->|Ht]); [| | |by apply elem_of_nil in Ht].
  - destruct (Hrun [(1%nat, "acted by")]) as (m & Hm & Hg). exists m. split; [|done].
    apply search_at_start. unfold match_at, actor_pattern. cbn [run] in *.
    rewrite match_lit_app. cbn [prev rest caps]. rewrite str_take_consumed.
    by rewrite Hm.
  - destruct (Hrun [(1%nat, "starring")]) as (m & Hm & Hg). exists m. split; [|done].
    apply search_at_start. unfold match_at, actor_pattern. cbn [run] in *.
    rewrite (match_lit_app "starring"). cbn [prev rest caps]. rewrite str_take_consumed.
    by rewrite Hm.
  - destruct (Hrun [(1%nat, "featuring")]) as (m & Hm & Hg). exists m. split; [|done].
    apply search_at_start. unfold match_at, actor_pattern. cbn [run] in *.
    rewrite (match_lit_app "featuring"). cbn [prev rest caps]. rewrite str_take_consumed.
    by rewrite Hm.
Qed.
Lemma actor_clause_filter self clause trigger ws name :
  trigger ∈ ["acted by"; "starring"; "featuring"] →
  ws ≠ "" → all_chars Py.is_space ws = true →
  name ≠ "" → Py.strip name = name →
  all_chars (in_class false CDot) name = true →
  Py.lower (Py.strip clause) = trigger +:+ ws +:+ name →
  _filter_clause self clause = inr (default [] (dict_get name (actor self))).
Proof.
  intros Ht Hws Hspace Hname Hstrip Hline Hclause.
  destruct (actor_match trigger ws name) as (m & Hm & Hg); try done.
  unfold _filter_clause. rewrite Hclause, Hm. unfold index_get. by rewrite Hg, Hstrip.
Qed.

(** X16.  A clause that, trimmed and in lower case, reads [acted by],
    [starring] or [featuring], then whitespace, then a name on one line
    without surrounding whitespace, is a structured clause, and
    [_filter_clause] answers it with the records the actor index holds
    under that name, none when the name is not a key. *)
Theorem actor_clause_lookup self clause trigger ws name :
  trigger ∈ ["acted by"; "starring"; "featuring"] →
  ws ≠ "" → all_chars Py.is_space ws = true →
  name ≠ "" → Py.strip name = name →
  all_chars (in_class false CDot) name = true →
  Py.lower (Py.strip clause) = trigger +:+ ws +:+ name →
  _is_clause_structured clause = true
  ∧ _filter_clause self clause = inr (default [] (dict_get name (actor self))).
Proof.
  intros Ht Hws Hspace Hname Hstrip Hline Hclause. split.
  - destruct (actor_match trigger ws name) as (m & Hm & Hg); try done.
    unfold _is_clause_structured, patterns. rewrite Hclause. cbn [existsb].
    rewrite Hm. by rewrite bool_decide_eq_true_2.
  - by apply (actor_clause_filter self clause trigger ws name).
Qed.
End ActorClauses.

(** ** Building the indexes *)

Section Building.
Import MovieSearchAgent IndexBuilder Filing.
Implicit Types (index : list (string * list value)) (movie : value).

Lemma append_under_lookup key movie index k :
  dict_get k (append_under key movie index)
  = if decide (k = key) then Some (default [] (dict_get key index) ++ [movie])
    else dict_get k index.
Proof.
  unfold dict_get. induction index as [|[k' ms] index IH]; simpl.
  - destruct (decide (k = key)) as [->|Hk].
    + by rewrite bool_decide_eq_true_2.
    + by rewrite bool_decide_eq_false_2.
  - destruct (decide (k' = key)) as [->|Hk']; simpl.
    + destruct (decide (k = key)) as [->|Hk].
      * by rewrite !bool_decide_eq_true_2.
      * rewrite !bool_decide_eq_false_2; [done|congruence..].
    + destruct (bool_decide (k' = k)) eqn:Hkk.
      * apply bool_decide_eq_true in Hkk as ->. by rewrite decide_False.
      * rewrite IH. destruct (decide (k = key)) as [->|Hk]; [|done].
        by rewrite bool_decide_eq_false_2.
Qed.

Lemma append_under_gather key movie index k :
  default [] (dict_get k (append_under key movie index))
  = default [] (dict_get k index) ++ (if decide (k = key) then [movie] else []).
Proof.
  rewrite append_under_lookup. destruct (decide (k = key)) as [->|]; [done|].
  by rewrite app_nil_r.
Qed.




Lemma add_name_gather name movie index index' k :
  add_name name movie index = inr index' →
  default [] (dict_get k index')
  = default [] (dict_get k index) ++ (if files_under k name then [movie] else []).
Proof.
  unfold add_name. intros Hadd.
  destruct name as [| | | |s| |]; simpl in *;
    try (repeat case_match; simplify_eq; by rewrite ?app_nil_r).
  destruct (bool_decide (s = "")) eqn:Hs; simpl in *; simplify_eq.
  - by rewrite app_nil_r.
  - rewrite append_under_gather.
    destruct (decide (k = Py.lower s)) as [->|Hk].
    + by rewrite bool_decide_eq_true_2.
    + rewrite bool_decide_eq_false_2 by done. by rewrite app_nil_r.
Qed.


Lemma add_names_gather names movie index index' k :
  add_names names movie index = inr index' →
  default [] (dict_get k index')
  = default [] (dict_get k index) ++ ((λ _, movie) <$> List.filter (files_under k) names).
Proof.
  revert index. induction names as [|name names IH]; intros index Hadd; simpl in *.
  - simplify_eq. by rewrite app_nil_r.
  - destruct (add_name name movie index) as [|index1] eqn:H1; [done|].
    rewrite (IH _ Hadd), (add_name_gather _ _ _ _ _ H1), <- app_assoc.
    by destruct (files_under k name).
Qed.


Lemma add_listed_gather field m movie index index' k :
  add_listed field m movie index = inr index' →
  default [] (dict_get k index')
  = default [] (dict_get k index)
    ++ ((λ _, movie) <$> List.filter (files_under k) (names_listed field m)).
Proof.
  unfold add_listed, names_listed.
  destruct (default (VList []) (dict_get field m));
    try (intros; simplify_eq; by rewrite app_nil_r).
  apply add_names_gather.
Qed.




Lemma add_movie_gather self movie self' key :
  add_movie self movie = inr self' →
  default [] (dict_get key (actor self'))
    = default [] (dict_get key (actor self)) ++ filed (names_listed "actors") key [movie]
  ∧ default [] (dict_get key (director self'))
    = default [] (dict_get key (director self)) ++ filed director_listed key [movie]
  ∧ default [] (dict_get key (company self'))
    = default [] (dict_get key (company self))
      ++ filed (names_listed "production_companies") key [movie]
  ∧ default [] (dict_get key (genre self'))
    = default [] (dict_get key (genre self)) ++ filed (names_listed "genres") key [movie]
  ∧ default [] (dict_get key (year self'))
    = default [] (dict_get key (year self)) ++ filed_by_year key [movie].
Proof.
  unfold add_movie, filed, filed_by_year, year_key. intros Hadd.
  destruct movie as [| | | | | |m]; try done.
  destruct (release_year m) as [|y] eqn:Hy; [done|].
  destruct (add_listed "actors" m (VDict m) (actor self)) as [|a'] eqn:Ha; [done|].
  destruct (add_name _ (VDict m) (director self)) as [|d'] eqn:Hd; [done|].
  destruct (add_listed "production_companies" m (VDict m) (company self)) as [|c'] eqn:Hc;
    [done|].
  destruct (add_listed "genres" m (VDict m) (genre self)) as [|g'] eqn:Hg; [done|].
  simplify_eq. simpl. rewrite ?app_nil_r.
  repeat split.
  - by apply add_listed_gather.
  - rewrite (add_name_gather _ _ _ _ key Hd). unfold director_listed. simpl.
    by destruct (files_under key _).
  - by apply add_listed_gather.
  - by apply add_listed_gather.
  - rewrite Hy. destruct (negb (bool_decide (y = "")) && Builtins.isdigit y) eqn:Hok.
    + rewrite append_under_gather. destruct (decide (key = y)) as [->|Hk].
      * by rewrite bool_decide_eq_true_2.
      * rewrite bool_decide_eq_false_2; [done|congruence].
    + rewrite bool_decide_eq_false_2 by done. by rewrite app_nil_r.
Qed.


Lemma filed_app names_of key movies1 movies2 :
  filed names_of key (movies1 ++ movies2)
  = filed names_of key movies1 ++ filed names_of key movies2.
Proof. unfold filed. by rewrite fmap_app, join_app. Qed.

Lemma build_from_gather self movies idx key :
  build_from self movies = inr idx →
  default [] (dict_get key (actor idx))
    = default [] (dict_get key (actor self)) ++ filed (names_listed "actors") key movies
  ∧ default [] (dict_get key (director idx))
    = default [] (dict_get key (director self)) ++ filed director_listed key movies
  ∧ default [] (dict_get key (company idx))
    = default [] (dict_get key (company self))
      ++ filed (names_listed "production_companies") key movies
  ∧ default [] (dict_get key (genre idx))
    = default [] (dict_get key (genre self)) ++ filed (names_listed "genres") key movies
  ∧ default [] (dict_get key (year idx))
    = default [] (dict_get key (year self)) ++ filed_by_year key movies.
Proof.
  revert self. induction movies as [|movie movies IH]; intros self Hb; simpl in Hb.
  - simplify_eq. unfold filed, filed_by_year. simpl. by rewrite !app_nil_r.
  - destruct (add_movie self movie) as [|self1] eqn:H1; [done|].
    destruct (IH _ Hb) as (Ea & Ed & Ec & Eg & Ey).
    destruct (add_movie_gather _ _ _ key H1) as (Fa & Fd & Fc & Fg & Fy).
    rewrite Ea, Ed, Ec, Eg, Ey, Fa, Fd, Fc, Fg, Fy.
    change (movie :: movies) with ([movie] ++ movies).
    unfold filed_by_year. rewrite !filed_app, List.filter_app, <- !app_assoc. done.
Qed.


(** X17.  Looking a key up in an index built by [build_indexes] gives the
    movies that list a non-empty name whose lower-case form is the key, in
    catalogue order and once for every such name; in the year index, the
    movies whose release date, up to its first hyphen, is the key and a
    run of digits. *)
Theorem built_index_lookup movies idx key :
  build_indexes movies = inr idx →
  default [] (dict_get key (actor idx)) = filed (names_listed "actors") key movies
  ∧ default [] (dict_get key (director idx)) = filed director_listed key movies
  ∧ default [] (dict_get key (company idx))
    = filed (names_listed "production_companies") key movies
  ∧ default [] (dict_get key (genre idx)) = filed (names_listed "genres") key movies
  ∧ default [] (dict_get key (year idx)) = filed_by_year key movies.
Proof. intros Hb. exact (build_from_gather _ _ _ key Hb). Qed.


End Building.

(** ** From the catalogue to a clause *)

Section BuildAndFilter.
Import Re MovieSearchAgent IndexBuilder Filing.

(** X19.  On indexes built from a catalogue, an actor clause is answered
    with the movies of the catalogue that list the name, in any
    capitalisation, among their actors, in catalogue order and once for
    every time the name is listed. *)
Theorem built_actor_clause movies idx clause trigger ws name :
  build_indexes movies = inr idx →
  trigger ∈ ["acted by"; "starring"; "featuring"] →
  ws ≠ "" → all_chars Py.is_space ws = true →
  name ≠ "" → Py.strip name = name →
  all_chars (in_class false CDot) name = true →
  Py.lower (Py.strip clause) = trigger +:+ ws +:+ name →
  _filter_clause idx clause = inr (filed (names_listed "actors") name movies).
Proof.
  intros Hb Ht Hws Hspace Hname Hstrip Hline Hclause.
  rewrite (actor_clause_filter idx clause trigger ws name) by done.
  f_equal. by destruct (build_from_gather _ _ _ name Hb) as (-> & _).
Qed.
End BuildAndFilter.

(** ** Rows and records *)

Section RowFacts.
Import Reconciler Rows.

Lemma enrich_objects metadatas items :
  enrich metadatas items = enrich metadatas (VDict <$> objects items).
Proof.
  induction items as [|v items IH]; [done|].
  destruct v; simpl; try done. by rewrite IH.
Qed.

Lemma enrich_length metadatas items rows :
  enrich metadatas items = inr rows → length rows = length (objects items).
Proof.
  revert rows. induction items as [|v items IH]; intros rows Hrows; simpl in *.
  - by simplify_eq.
  - destruct v; simpl; try by apply IH.
    destruct (first_match _ metadatas); [done|].
    destruct (enrich metadatas items); [done|]. simplify_eq. simpl. f_equal. by apply IH.
Qed.

(** X20.  The reconciliation loop passes over every item that is not an
    object: the rows are those of the objects alone, one row for each
    when no stored record makes the matching raise. *)
Theorem enrich_skips_non_objects metadatas items :
  enrich metadatas items = enrich metadatas (VDict <$> objects items)
  ∧ ∀ rows, enrich metadatas items = inr rows → length rows = length (objects items).
Proof. split; [apply enrich_objects|apply enrich_length]. Qed.

(** X21.  A stored record whose title is missing or blank is contained in
    every title: when it comes first among the stored records, every row
    takes its metadata from it, whatever the recommendation is and
    whatever records follow. *)
Theorem blank_record_claims_every_row m metadatas items :
  text_field "title" m = "" →
  enrich (VDict m :: metadatas) items = inr (row_from (Some m) <$> objects items).
Proof.
  intros Hblank. induction items as [|v items IH]; [done|].
  destruct v; simpl; try done.
  rewrite Hblank. cbn [Py.lower]. rewrite contains_empty.
  cbn [enrich] in IH. by rewrite IH.
Qed.

End RowFacts.

(** ** Cleaning a title before the offer search *)

Section TitleCleaning.
Import Re ReSub OfferSearch Cleaning.

Lemma lstrip_head_in f s c s' :
  all_chars f s = true → Py.lstrip s = String c s' → f c = true.
Proof.
  induction s as [|a s IH]; [done|]. simpl. intros [Ha Hall]%andb_true_iff.
  destruct (Py.is_space a); [by apply IH|]. intros ?. by simplify_eq.
Qed.

Lemma lstrip_blank s : Py.lstrip s = "" → all_chars Py.is_space s = true.
Proof.
  induction s as [|a s IH]; [done|]. simpl.
  destruct (Py.is_space a); [by apply IH|done].
Qed.

Lemma lstrip_app_head s c s' tail :
  Py.lstrip s = String c s' → Py.lstrip (s +:+ tail) = String c (s' +:+ tail).
Proof.
  induction s as [|a s IH]; [done|]. rewrite ?str_app_cons. simpl.
  destruct (Py.is_space a); [by apply IH|]. intros ?. by simplify_eq.
Qed.

Lemma rstrip_suffix s t : t ≠ "" → Py.rstrip (s +:+ t) = s +:+ t → Py.rstrip t = t.
Proof.
  intros Ht. induction s as [|a s IH]; [by rewrite str_app_empty_l|].
  rewrite ?str_app_cons. simpl.
  destruct (Py.rstrip (s +:+ t)) as [|b r] eqn:Hr.
  - destruct (Py.is_space a); intros Heq; simplify_eq.
    destruct s; [by destruct t|done].
  - intros Heq. apply IH. by simplify_eq.
Qed.

(** Where the text does not go on, after whitespace, with a parenthesis,
    the pattern does not match. *)
Lemma paren_no_match {R} p s cs (k : state → option R) :
  (∀ s', s ≠ String "(" s') → match_lit false "(" (State p s cs) k = None.
Proof.
  intros Hs. destruct s as [|c s]; [done|]. simpl.
  rewrite bool_decide_eq_false_2; [done|]. intros <-. by apply (Hs s).
Qed.

Lemma space_no_match {R} p s cs (k : state → option R) :
  (∀ p s cs, (∀ s', s ≠ String "(" s') → k (State p s cs) = None) →
  (∀ s', Py.lstrip s ≠ String "(" s') →
  match_rep false CSpace 0 None p s cs k = None.
Proof.
  intros Hk. revert p. induction s as [|c s IH]; intros p Hs; simpl.
  - by apply Hk.
  - simpl in Hs. destruct (Py.is_space c) eqn:Hc; simpl.
    + rewrite (IH (Some c) Hs). apply Hk. intros s' [= -> _]. done.
    + by apply Hk.
Qed.

Lemma suffix_no_match p s :
  (∀ s', Py.lstrip s ≠ String "(" s') → match_at false year_suffix_pattern p s = None.
Proof.
  intros Hs. unfold match_at, year_suffix_pattern, star. cbn [run prev rest caps].
  apply space_no_match; [|done]. intros. by apply paren_no_match.
Qed.

(** Whitespace, a parenthesis, four digits and the closing parenthesis
    are matched as a whole. *)
Lemma suffix_match p ws yyyy u :
  all_chars Py.is_space ws = true →
  all_chars Py.is_digit yyyy = true → String.length yyyy = 4%nat →
  match_at false year_suffix_pattern p (ws +:+ "(" +:+ yyyy +:+ ")" +:+ u)
  = Some (State (Some ")"%char) u []).
Proof.
  intros Hws Hd Hlen.
  unfold match_at, year_suffix_pattern, star, opt, date_part. cbn [run prev rest caps].
  apply match_rep_run; [done|by intros c s' [= <- _]|lia|].
  rewrite (match_lit_app "("). cbn [prev rest caps].
  rewrite <- Hlen. apply match_rep_exact; [done|lia|].
  rewrite ?str_app_cons, ?str_app_empty_l. reflexivity.
Qed.

Lemma remove_go_blank fuel p : remove_go fuel false year_suffix_pattern p "" = "".
Proof. by destruct fuel. Qed.

(** The scan copies a stretch in which the pattern matches nowhere. *)
Lemma remove_go_prefix fuel p t tail :
  (∀ t1 t2, t = t1 +:+ t2 → t2 ≠ "" → ∀ s', Py.lstrip (t2 +:+ tail) ≠ String "(" s') →
  remove_go (String.length t + fuel) false year_suffix_pattern p (t +:+ tail)
  = t +:+ remove_go fuel false year_suffix_pattern (last_char p t) tail.
Proof.
  revert p. induction t as [|c t IH]; intros p Hno.
  - by rewrite !str_app_empty_l.
  - assert (Hnone : match_at false year_suffix_pattern p (String c t +:+ tail) = None).
    { apply suffix_no_match. by apply (Hno "" (String c t)). }
    rewrite !str_app_cons in *. cbn [String.length Nat.add remove_go last_char].
    rewrite Hnone. f_equal. apply IH.
    intros t1 t2 -> Ht2. by apply (Hno (String c t1) t2).
Qed.

Lemma no_paren_stretch t :
  all_chars not_paren t = true →
  ∀ t1 t2, t = t1 +:+ t2 → t2 ≠ "" → ∀ s', Py.lstrip (t2 +:+ "") ≠ String "(" s'.
Proof.
  intros Hall t1 t2 -> Ht2 s' Hl. rewrite str_app_empty_r in Hl.
  rewrite all_chars_app in Hall. apply andb_true_iff in Hall as [_ Hall].
  by pose proof (lstrip_head_in _ _ _ _ Hall Hl).
Qed.

Lemma trimmed_stretch t tail :
  all_chars not_paren t = true → Py.rstrip t = t →
  ∀ t1 t2, t = t1 +:+ t2 → t2 ≠ "" → ∀ s', Py.lstrip (t2 +:+ tail) ≠ String "(" s'.
Proof.
  intros Hall Hr t1 t2 -> Ht2 s' Hl.
  apply rstrip_suffix in Hr; [|done].
  rewrite all_chars_app in Hall. apply andb_true_iff in Hall as [_ Hall].
  destruct (Py.lstrip t2) as [|c r] eqn:Hhead.
  - apply lstrip_blank, rstrip_space in Hhead. congruence.
  - rewrite (lstrip_app_head _ _ _ tail Hhead) in Hl. simplify_eq.
    by pose proof (lstrip_head_in _ _ _ _ Hall Hhead).
Qed.

(** X22.  A title without an opening parenthesis goes into the offer
    query as it is, trimmed. *)
Theorem cleaned_title_without_parenthesis title :
  all_chars not_paren title = true → cleaned_title title = Py.strip title.
Proof.
  intros Hall. unfold cleaned_title, remove_all. f_equal.
  rewrite <- (str_app_empty_r title) at 2.
  replace (S (String.length title)) with (String.length title + 1)%nat by lia.
  rewrite remove_go_prefix by (by apply no_paren_stretch).
  by rewrite remove_go_blank, str_app_empty_r.
Qed.

(** X23.  A release year in parentheses is cut out of the title together
    with the whitespace before it: of [t (yyyy) u] the offer query gets
    [t u], trimmed. *)
Theorem cleaned_title_drops_year t ws yyyy u :
  all_chars not_paren t = true → Py.rstrip t = t →
  all_chars Py.is_space ws = true →
  all_chars Py.is_digit yyyy = true → String.length yyyy = 4%nat →
  all_chars not_paren u = true →
  cleaned_title (t +:+ ws +:+ "(" +:+ yyyy +:+ ")" +:+ u) = Py.strip (t +:+ u).
Proof.
  intros Ht Hr Hws Hd Hlen Hu. unfold cleaned_title, remove_all. f_equal.
  set (tail := ws +:+ "(" +:+ yyyy +:+ ")" +:+ u).
  rewrite str_length_app.
  replace (S (String.length t + String.length tail))
    with (String.length t + S (String.length tail))%nat by lia.
  rewrite remove_go_prefix by (by apply trimmed_stretch).
  f_equal. cbn [remove_go]. unfold tail at 1. rewrite suffix_match by done.
  cbn [rest prev]. rewrite decide_False.
  - unfold tail. rewrite !str_length_app, Hlen. cbn [String.length].
    replace (String.length ws + (1 + (4 + (1 + String.length u))))%nat
      with (String.length u + (String.length ws + 6))%nat by lia.
    rewrite <- (str_app_empty_r u) at 2.
    rewrite remove_go_prefix by (by apply no_paren_stretch).
    by rewrite remove_go_blank, str_app_empty_r.
  - unfold tail. intros Heq. apply (f_equal String.length) in Heq.
    rewrite !str_length_app in Heq. cbn [String.length] in Heq. lia.
Qed.

End TitleCleaning.

(** ** More examples *)

Section MoreExamples.
Import Re MovieSearchAgent MovieOrchestrator Reconciler Demo Films Plan Titles.
Import MovieOfferAgent OfferSearch IndexBuilder Filing Rows Cleaning.


Lemma search_aborts_on_empty_semantic_clause_witness :
  fst (search demo_indexes "story about hope and talking animals" 5 initial_world) = inr [].
Proof.
  apply (search_aborts_on_empty_semantic_clause demo_indexes
           "story about hope and talking animals" 5 "talking animals" initial_world).
  - apply list_elem_of_In. vm_compute. tauto.
  - vm_compute. reflexivity.
  - vm_compute. reflexivity.
Defined.



Lemma demo_vector_query_bound c : (length (vector_query c 5) ≤ 5)%nat.
Proof. simpl. rewrite length_take. lia. Defined.

Lemma search_semantic_cap_witness : (length [arrival] ≤ 5)%nat.
Proof.
  apply (search_semantic_cap demo_indexes "first contact and after 2015" 9 initial_world
           [arrival]).
  - vm_compute. discriminate.
  - exact demo_vector_query_bound.
  - vm_compute. reflexivity.
Defined.


Lemma recommendations_reconcile_with_candidates_witness :
  fst (Main.recommendations_for demo_indexes "first contact" initial_world)
  = inr (rows_of (enrich (take 5 [arrival]) [candidate])).
Proof.
  apply (recommendations_reconcile_with_candidates demo_indexes "first contact"
           initial_world [arrival] (Json.dumps object_payload)
           [("recommendations", VList [candidate])] [candidate]).
  - vm_compute. reflexivity.
  - discriminate.
  - reflexivity.
  - vm_compute. reflexivity.
  - reflexivity.
Defined.

Lemma recommendations_drop_bare_array_witness :
  fst (@Main.recommendations_for array_env demo_indexes "first contact" initial_world)
  = inr [].
Proof.
  apply (@recommendations_drop_bare_array array_env demo_indexes "first contact"
           initial_world [arrival] (Json.dumps array_payload) [candidate]).
  - vm_compute. reflexivity.
  - discriminate.
  - reflexivity.
  - vm_compute. reflexivity.
Defined.

Lemma blank_title_loosely_matches_all_witness :
  normalize_title VNone = ""
  ∧ loose_match VNone (VStr "Arrival") = true
  ∧ loose_match (VStr "Arrival") VNone = true.
Proof.
  apply (blank_title_loosely_matches_all VNone (VStr "Arrival")).
  left. reflexivity.
Defined.

Lemma offers_keep_rank_and_platform_witness :
  (length sully_offers ≤ length organic)%nat
  ∧ ∀ offer, offer ∈ sully_offers →
      ∃ i fields row platform,
        organic !! i = Some (VDict fields) ∧ offer = VDict row
        ∧ dict_get "#" row = Some (VInt (Z.of_nat (1 + i)))
        ∧ dict_get "Platform" row = Some (VStr platform) ∧ platform ∈ platforms
        ∧ dict_get "Title" row = Some (default (VStr "") (dict_get "title" fields))
        ∧ dict_get "URL" row = Some (default (VStr "") (dict_get "link" fields)).
Proof.
  apply (offers_keep_rank_and_platform serp "Sully (2016)"
           [("organic_results", VList organic)] organic sully_offers).
  - reflexivity.
  - reflexivity.
  - reflexivity.
  - vm_compute. reflexivity.
Defined.

Lemma actor_clause_lookup_witness :
  _is_clause_structured " Starring  Tom Hanks" = true
  ∧ _filter_clause demo_indexes " Starring  Tom Hanks"
    = inr (default [] (dict_get "tom hanks" (actor demo_indexes))).
Proof.
  apply (actor_clause_lookup demo_indexes " Starring  Tom Hanks" "starring" "  "
           "tom hanks").
  - apply list_elem_of_In. vm_compute. tauto.
  - discriminate.
  - reflexivity.
  - discriminate.
  - reflexivity.
  - reflexivity.
  - vm_compute. reflexivity.
Defined.

Lemma films_built : build_indexes films = inr built.
Proof. vm_compute. reflexivity. Defined.

Lemma built_index_lookup_witness :
  default [] (dict_get "tom hanks" (actor built))
  = filed (names_listed "actors") "tom hanks" films
  ∧ default [] (dict_get "tom hanks" (director built))
    = filed director_listed "tom hanks" films
  ∧ default [] (dict_get "tom hanks" (company built))
    = filed (names_listed "production_companies") "tom hanks" films
  ∧ default [] (dict_get "tom hanks" (genre built))
    = filed (names_listed "genres") "tom hanks" films
  ∧ default [] (dict_get "tom hanks" (year built)) = filed_by_year "tom hanks" films.
Proof. apply (built_index_lookup films built "tom hanks"). exact films_built. Defined.


Lemma built_actor_clause_witness :
  _filter_clause built "featuring Tom Hanks"
  = inr (filed (names_listed "actors") "tom hanks" films).
Proof.
  apply (built_actor_clause films built "featuring Tom Hanks" "featuring" " " "tom hanks").
  - vm_compute. reflexivity.
  - apply list_elem_of_In. vm_compute. tauto.
  - discriminate.
  - reflexivity.
  - discriminate.
  - reflexivity.
  - reflexivity.
  - vm_compute. reflexivity.
Defined.

Lemma blank_record_claims_every_row_witness :
  enrich (VDict untitled :: [arrival]) [candidate; VStr "Arrival"]
  = inr (row_from (Some untitled) <$> objects [candidate; VStr "Arrival"]).
Proof.
  apply (blank_record_claims_every_row untitled [arrival] [candidate; VStr "Arrival"]).
  reflexivity.
Defined.

Lemma cleaned_title_without_parenthesis_witness :
  cleaned_title " The Post " = Py.strip " The Post ".
Proof. apply (cleaned_title_without_parenthesis " The Post "). reflexivity. Defined.

Lemma cleaned_title_drops_year_witness :
  cleaned_title (" Sully" +:+ "  " +:+ "(" +:+ "2016" +:+ ")" +:+ ", remastered")
  = Py.strip (" Sully" +:+ ", remastered").
Proof.
  apply (cleaned_title_drops_year " Sully" "  " "2016" ", remastered"); reflexivity.
Defined.

End MoreExamples.

(** ** The clauses of a query *)

Section ClauseFacts.
Import MovieSearchAgent.

Lemma lower_fixed s :
  all_chars (λ c, bool_decide (Py.lower_char c = c)) s = true ↔ Py.lower s = s.
Proof.
  induction s as [|c s IH]; [done|]. simpl. rewrite andb_true_iff, bool_decide_eq_true, IH.
  split; [by intros [-> ->]|]. intros ?. by simplify_eq.
Qed.

Lemma all_chars_rev_app f s t :
  all_chars f (String.rev_app s t) = all_chars f s && all_chars f t.
Proof.
  revert t. induction s as [|c s IH]; intros t; [done|]. simpl. rewrite IH. simpl.
  destruct (f c), (all_chars f s); simpl; try done.
Qed.

Lemma split_go_all f sep s skip cur :
  all_chars f s = true → all_chars f cur = true →
  Forall (λ piece, all_chars f piece = true) (Py.split_go sep s skip cur).
Proof.
  revert skip cur. induction s as [|c s IH]; intros skip cur Hs Hcur.
  - constructor; [|constructor]. unfold String.rev. by rewrite all_chars_rev_app, Hcur.
  - cbn [all_chars] in Hs. apply andb_true_iff in Hs as [Hc Hs]. cbn [Py.split_go].
    destruct skip as [|skip]; [|by apply IH].
    destruct (Py.startswith sep (String c s)).
    + constructor; [|by apply IH].
      unfold String.rev. by rewrite all_chars_rev_app, Hcur.
    + apply IH; [done|]. simpl. by rewrite Hc.
Qed.

Lemma all_chars_lstrip f s : all_chars f s = true → all_chars f (Py.lstrip s) = true.
Proof.
  induction s as [|c s IH]; [done|]. simpl. intros [Hc Hs]%andb_true_iff.
  destruct (Py.is_space c); [by apply IH|]. simpl. by rewrite Hc.
Qed.

Lemma all_chars_rstrip f s : all_chars f s = true → all_chars f (Py.rstrip s) = true.
Proof.
  induction s as [|c s IH]; [done|]. simpl. intros [Hc Hs]%andb_true_iff.
  specialize (IH Hs). destruct (Py.rstrip s) as [|b r].
  - destruct (Py.is_space c); [done|]. simpl. by rewrite Hc.
  - cbn [all_chars] in *. by rewrite Hc.
Qed.

(** X24.  Every clause the query is split into is non-empty, trimmed and
    in lower case, so the normalisation that [_is_clause_structured] and
    [_filter_clause] apply to their argument leaves the clauses of
    [search] as they are. *)
Theorem split_clauses_normal query clause :
  clause ∈ split_clauses query →
  clause ≠ "" ∧ Py.strip clause = clause ∧ Py.lower clause = clause
  ∧ Py.lower (Py.strip clause) = clause.
Proof.
  unfold split_clauses. intros Hin.
  apply list_elem_of_In, filter_In in Hin as [Hin Hne].
  apply negb_true_iff, bool_decide_eq_false in Hne.
  apply list_elem_of_In, list_elem_of_fmap in Hin as (piece & -> & Hpiece).
  assert (Hlow : Py.lower (Py.strip piece) = Py.strip piece).
  { apply lower_fixed. unfold Py.strip. apply all_chars_lstrip, all_chars_rstrip.
    pose proof (split_go_all (λ c, bool_decide (Py.lower_char c = c)) " and "
                  (Py.lower query) 0 "") as Hall.
    rewrite Forall_forall in Hall. apply Hall; [|done|done].
    apply lower_fixed, lower_idemp. }
  split; [done|]. split; [apply strip_idemp|]. split; [done|].
  by rewrite strip_idemp.
Qed.

End ClauseFacts.

Section ClauseExamples.
Import MovieSearchAgent.

Lemma split_clauses_normal_witness :
  "after 2015" ≠ "" ∧ Py.strip "after 2015" = "after 2015"
  ∧ Py.lower "after 2015" = "after 2015"
  ∧ Py.lower (Py.strip "after 2015") = "after 2015".
Proof.
  apply (split_clauses_normal "Story about hope  AND After 2015 " "after 2015").
  apply list_elem_of_In. vm_compute. tauto.
Defined.

End ClauseExamples.
